(** * File-to-Oracle loader: a shallow embedding of [app.py]

    The development follows the layout of the program: text helpers and the
    identifier sanitizer, the tabular data model, type inference and the DDL
    builder, the database session and the Streamlit script with its upload
    trigger.  External libraries (pandas, python-oracledb, Streamlit, the
    Unicode tables behind [str]) are modelled by their documented behaviour;
    what they answer at run time is supplied by an environment. *)

From Stdlib Require Import ZArith NArith Ascii String DecimalString.
From stdpp Require Import base option list gmap.

Local Open Scope N_scope.
Local Open Scope list_scope.

(** ** Text

    A Python [str] is a sequence of Unicode code points. *)

Definition char : Type := N.
Definition str : Type := list char.

Definition lit (s : string) : str := map N_of_ascii (list_ascii_of_string s).
Arguments lit s%_string : simpl never.

Definition nl : str := [10].
Definition underscore : char := 95.

(** [sep.join(parts)] *)
Fixpoint join (sep : str) (parts : list str) : str :=
  match parts with
  | [] => []
  | [p] => p
  | p :: rest => p ++ sep ++ join sep rest
  end.

(** [f"{n}"] for a non-negative [int] *)
Definition decimal (n : nat) : str := lit (NilEmpty.string_of_uint (Nat.to_uint n)).

(** [s.endswith(suffix)] *)
Definition endswith (s suffix : str) : bool :=
  bool_decide (drop (length s - length suffix)%nat s = suffix).

Definition is_upper_AZ (c : char) : bool := (65 <=? c) && (c <=? 90).
Definition is_lower_az (c : char) : bool := (97 <=? c) && (c <=? 122).
Definition is_digit_09 (c : char) : bool := (48 <=? c) && (c <=? 57).

(** The character class [[A-Z0-9_]]. *)
Definition ident_char (c : char) : bool :=
  is_upper_AZ c || is_digit_09 c || (c =? underscore).

(** The character class [[A-Z_]]. *)
Definition ident_head (c : char) : bool := is_upper_AZ c || (c =? underscore).

(** The part of the Unicode character database that [str.strip], [str.upper]
    and the pattern [\d] consult for code points beyond ASCII.  The ASCII range
    is written out below; the rest is a table of the interpreter. *)
Class UnicodeData := {
  ucd_whitespace : char -> bool;
  ucd_upper : char -> str;
  ucd_decimal : char -> bool
}.

Section PythonStr.
Context `{UnicodeData}.

(** Whitespace as [str.strip()] sees it: TAB, LF, VT, FF, CR, the four
    separators FS GS RS US, and SPACE in the ASCII range. *)
Definition isspace (c : char) : bool :=
  if c <? 128
  then ((9 <=? c) && (c <=? 13)) || ((28 <=? c) && (c <=? 31)) || (c =? 32)
  else ucd_whitespace c.

(** The full upper-case mapping of one code point ([str.upper] applies it
    code point by code point; the image may be longer than one). *)
Definition toupper (c : char) : str :=
  if c <? 128
  then (if is_lower_az c then [c - 32] else [c])
  else ucd_upper c.

(** [\d] on a [str] pattern: any decimal digit, [[0-9]] among them. *)
Definition re_digit (c : char) : bool :=
  if c <? 128 then is_digit_09 c else ucd_decimal c.

Fixpoint lstrip (s : str) : str :=
  match s with
  | c :: s' => if isspace c then lstrip s' else s
  | [] => []
  end.

Definition rstrip (s : str) : str := rev (lstrip (rev s)).

(** [s.strip()] *)
Definition strip (s : str) : str := rstrip (lstrip s).

(** [s.upper()] *)
Definition upper (s : str) : str := flat_map toupper s.

(** [re.sub(p, repl, s)] for a pattern [p] that is one character class:
    every character of the class is a match of its own and is replaced. *)
Definition re_sub_class (p : char -> bool) (repl : str) (s : str) : str :=
  flat_map (fun c => if p c then repl else [c]) s.

(** [re.match("^" + p, s)] for a one-character class [p], as a truth value. *)
Definition re_match_class (p : char -> bool) (s : str) : bool :=
  match s with
  | c :: _ => p c
  | [] => false
  end.

(** ** Identifier sanitizer *)

Definition MAX_IDENTIFIER_LEN : nat := 30.

(** [str(name)] is the identity on a [str]. *)
Definition sanitize_identifier (name : str) : str :=
  let name := upper (strip name) in
  let name := re_sub_class (fun c => negb (ident_char c)) [underscore] name in
  let name := if re_match_class re_digit name then underscore :: name else name in
  take MAX_IDENTIFIER_LEN name.

End PythonStr.

(** A sample of the tables, enough to run examples: no code point beyond
    ASCII is whitespace or a digit, sharp s upper-cases to two letters and
    dotless i to an ASCII letter. *)
Definition sample_ucd : UnicodeData := {|
  ucd_whitespace := fun _ => false;
  ucd_upper := fun c => if c =? 223 then [83; 83] else if c =? 305 then [73] else [c];
  ucd_decimal := fun _ => false
|}.

(** ** Regular expressions of the specification

    Full-match semantics over code points, for the patterns that the
    specification uses to describe identifiers. *)

Inductive regex : Type :=
| ReEps
| ReClass (p : char -> bool)
| ReCat (r1 r2 : regex)
| ReAlt (r1 r2 : regex)
| ReStar (r : regex).

Inductive fullmatch : regex -> str -> Prop :=
| FmEps : fullmatch ReEps []
| FmClass p c : p c = true -> fullmatch (ReClass p) [c]
| FmCat r1 r2 s1 s2 :
    fullmatch r1 s1 -> fullmatch r2 s2 -> fullmatch (ReCat r1 r2) (s1 ++ s2)
| FmAltL r1 r2 s : fullmatch r1 s -> fullmatch (ReAlt r1 r2) s
| FmAltR r1 r2 s : fullmatch r2 s -> fullmatch (ReAlt r1 r2) s
| FmStarNil r : fullmatch (ReStar r) []
| FmStarApp r s1 s2 :
    fullmatch r s1 -> fullmatch (ReStar r) s2 -> fullmatch (ReStar r) (s1 ++ s2).

(** [r{0,n}] *)
Fixpoint re_upto (n : nat) (r : regex) : regex :=
  match n with
  | O => ReEps
  | S n' => ReAlt ReEps (ReCat r (re_upto n' r))
  end.

(** [^[A-Z_][A-Z0-9_]{0,29}$] *)
Definition identifier_re : regex :=
  ReCat (ReClass ident_head) (re_upto 29 (ReClass ident_char)).

(** [^[A-Z0-9_]*$] *)
Definition charset_re : regex := ReStar (ReClass ident_char).

Definition starts_with_digit (s : str) : bool :=
  match s with
  | c :: _ => is_digit_09 c
  | [] => false
  end.

(** ** Tabular data (pandas)

    A column carries a dtype and its values; a frame is an ordered list of
    labelled columns over a shared index.  Labels may repeat. *)

Inductive Dtype : Type :=
| int64 | uint64 | Int64Dtype
| float64 | Float64Dtype
| bool_ | BooleanDtype
| datetime64_ns | DatetimeTZDtype
| timedelta64_ns
| complex128
| object_ | StringDtype | CategoricalDtype.

Inductive cell : Type :=
| VInt (n : Z)
| VFloat (mantissa exponent : Z)
| VNaN
| VStr (s : str)
| VBool (b : bool)
| VTimestamp (ns : Z)
| VNaT
| VNone
| VNA.

Record Series : Type := mkSeries { dtype : Dtype; values : list cell }.

Record DataFrame : Type := mkDataFrame {
  index_len : nat;
  labelled : list (str * Series)
}.

Global Instance Dtype_eq_dec : EqDecision Dtype.
Proof. solve_decision. Defined.
Global Instance cell_eq_dec : EqDecision cell.
Proof. solve_decision. Defined.
Global Instance Series_eq_dec : EqDecision Series.
Proof. solve_decision. Defined.
Global Instance DataFrame_eq_dec : EqDecision DataFrame.
Proof. solve_decision. Defined.

(** [df.columns] *)
Definition columns (df : DataFrame) : list str := map fst (labelled df).

(** [len(df)] *)
Definition len (df : DataFrame) : nat := index_len df.

(** Every column spans the index: the invariant pandas keeps on a frame. *)
Definition well_formed (df : DataFrame) : Prop :=
  Forall (fun ls => length (values (snd ls)) = index_len df) (labelled df).

(** [df.columns = new]: relabels in place; pandas raises [ValueError] when
    the number of labels differs from the number of columns ([None]). *)
Definition set_columns (new : list str) (df : DataFrame) : option DataFrame :=
  if bool_decide (length new = length (labelled df))
  then Some (mkDataFrame (index_len df) (zip new (map snd (labelled df))))
  else None.

(** What [df[c]] selects: the column when the label is unique, the sub-frame
    of all columns carrying it when the label repeats. *)
Inductive selection : Type :=
| SelSeries (s : Series)
| SelFrame (df : DataFrame).

(** [df[c]]; [None] is [KeyError]. *)
Definition getitem (df : DataFrame) (c : str) : option selection :=
  match filter (fun ls => fst ls = c) (labelled df) with
  | [] => None
  | [ls] => Some (SelSeries (snd ls))
  | many => Some (SelFrame (mkDataFrame (index_len df) many))
  end.

(** The dtype predicates of [pd.api.types].  Given a frame, which has no
    single dtype, each of them answers [False]. *)
Definition is_integer_dtype (x : selection) : bool :=
  match x with
  | SelSeries s =>
      match dtype s with int64 | uint64 | Int64Dtype => true | _ => false end
  | SelFrame _ => false
  end.

Definition is_float_dtype (x : selection) : bool :=
  match x with
  | SelSeries s =>
      match dtype s with float64 | Float64Dtype => true | _ => false end
  | SelFrame _ => false
  end.

Definition is_datetime64_any_dtype (x : selection) : bool :=
  match x with
  | SelSeries s =>
      match dtype s with datetime64_ns | DatetimeTZDtype => true | _ => false end
  | SelFrame _ => false
  end.

(** [pd.notnull] on one value: [None], [NaN], [NaT] and [pd.NA] are missing. *)
Definition notnull (v : cell) : bool :=
  match v with
  | VNaN | VNaT | VNone | VNA => false
  | _ => true
  end.

(** [pd.notnull(df)]: the boolean mask, column by column. *)
Definition notnull_frame (df : DataFrame) : list (list bool) :=
  map (fun ls => map notnull (values (snd ls))) (labelled df).

(** The value a column of the given dtype holds in place of a missing one.
    Only a column of Python objects can hold [None]. *)
Definition missing_value (d : Dtype) : cell :=
  match d with
  | object_ => VNone
  | datetime64_ns | DatetimeTZDtype | timedelta64_ns => VNaT
  | Int64Dtype | Float64Dtype | BooleanDtype | StringDtype => VNA
  | _ => VNaN
  end.

(** An integer as a [float64]: exact up to 53 bits, rounded to the nearest
    float, ties to even, beyond. *)
Definition float_of_int (n : Z) : cell :=
  (let a := Z.abs n in
   let bits := Z.log2 a + 1 in
   if bits <=? 53 then VFloat n 0
   else
     let s := bits - 53 in
     let q := Z.shiftr a s in
     let r := a - Z.shiftl q s in
     let half := Z.shiftl 1 (s - 1) in
     let q := if (half <? r) || ((r =? half) && Z.odd q) then q + 1 else q in
     VFloat (Z.sgn n * q) s)%Z.

(** A value of an integer column once the column holds floats. *)
Definition widen (v : cell) : cell :=
  match v with
  | VInt n => float_of_int n
  | _ => v
  end.

(** [df.where(cond, None)], column by column.  Nothing changes where the
    mask holds throughout.  Otherwise the entries the mask rejects are
    replaced: by [None] in a column of Python objects, by the column's own
    missing value ([NaN], [NaT], [pd.NA]) in a column of another dtype,
    which cannot hold [None].  Integers become floats and Booleans Python
    objects for that; under the mask of [pd.notnull] this does not arise,
    such a column having no missing value. *)
Definition where_column (mask : list bool) (s : Series) : Series :=
  if forallb (fun b => b) mask then s
  else
    match dtype s with
    | int64 | uint64 =>
        mkSeries float64
          (zip_with (fun (b : bool) v => if b then widen v else VNaN) mask (values s))
    | bool_ =>
        mkSeries object_
          (zip_with (fun (b : bool) v => if b then v else VNone) mask (values s))
    | d =>
        mkSeries d
          (zip_with (fun (b : bool) v => if b then v else missing_value d) mask (values s))
    end.

Definition where_ (df : DataFrame) (cond : list (list bool)) : DataFrame :=
  mkDataFrame (index_len df)
    (zip_with (fun mask ls => (fst ls, where_column mask (snd ls)))
       cond (labelled df)).

(** The numeric dtypes of NumPy, and its dtypes at large; the others are
    extension dtypes of pandas. *)
Definition numpy_number (d : Dtype) : bool :=
  match d with
  | int64 | uint64 | float64 | complex128 => true
  | _ => false
  end.

Definition numpy_dtype (d : Dtype) : bool :=
  match d with
  | int64 | uint64 | float64 | complex128 | bool_ | datetime64_ns | timedelta64_ns
  | object_ => true
  | _ => false
  end.

(** The dtype of the array [df.values] for columns of the given dtypes: the
    columns' own when they agree and it is a NumPy dtype; floats for a
    mixture of integers and floats; Python objects for any other mixture
    and for the extension dtypes. *)
Definition interleaved_dtype (ds : list Dtype) : Dtype :=
  match ds with
  | [] => object_
  | d :: rest =>
      if forallb (fun d' => bool_decide (d' = d)) rest
      then (if numpy_dtype d then d else object_)
      else if forallb numpy_number ds
      then (if existsb (fun d' => bool_decide (d' = complex128)) ds
            then complex128 else float64)
      else object_
  end.

(** What [tolist] makes of one entry of an array of dtype [array]: an
    integer held in an array of floats is a float; an array of
    [datetime64[ns]] or [timedelta64[ns]] gives its entries as integers,
    the nanoseconds, and [None] for [NaT]; anything else comes out as it
    is.  (Complex numbers have no values here.) *)
Definition tolist_item (array : Dtype) (v : cell) : cell :=
  match array with
  | float64 | complex128 => widen v
  | datetime64_ns | timedelta64_ns =>
      match v with
      | VTimestamp ns => VInt ns
      | VNaT => VNone
      | _ => v
      end
  | _ => v
  end.

(** [df.values.tolist()]: one list per index position, entries in column
    order, each as the array of the whole frame holds it. *)
Definition values_tolist (df : DataFrame) : list (list cell) :=
  let array := interleaved_dtype (map (fun ls => dtype (snd ls)) (labelled df)) in
  map (fun i => map (fun ls => tolist_item array (nth i (values (snd ls)) VNaN)) (labelled df))
      (seq 0 (index_len df)).

(** [df.head()] *)
Definition head (df : DataFrame) : DataFrame :=
  mkDataFrame (Nat.min 5 (index_len df))
    (map (fun ls => (fst ls, mkSeries (dtype (snd ls)) (take 5 (values (snd ls)))))
       (labelled df)).

(** Is every value of the column missing? *)
Definition all_null (s : Series) : bool := forallb (fun v => negb (notnull v)) (values s).

(** ** Type inference and DDL *)

Definition infer_oracle_type (col : selection) : str :=
  if is_integer_dtype col then lit "NUMBER"
  else if is_float_dtype col then lit "NUMBER"
  else if is_datetime64_any_dtype col then lit "TIMESTAMP"
  else lit "VARCHAR2(4000)".

(** Truth value of the [schema] argument: [None] and [""] are false. *)
Definition truthy (schema : option str) : bool :=
  match schema with
  | Some (_ :: _) => true
  | _ => false
  end.

(** [f"{schema}.{table}" if schema else table] *)
Definition qualified (schema : option str) (table : str) : str :=
  match schema with
  | Some s => if truthy schema then s ++ lit "." ++ table else table
  | None => table
  end.

(** The comprehension [[f"{c} {infer_oracle_type(df[c])}" for c in df.columns]];
    [None] is the [KeyError] of [df[c]]. *)
Definition column_clauses (df : DataFrame) : option (list str) :=
  mapM (fun c => col ← getitem df c; Some (c ++ lit " " ++ infer_oracle_type col))
       (columns df).

Definition build_create_table_sql (schema : option str) (table : str) (df : DataFrame)
  : option str :=
  cols ← column_clauses df;
  let full := qualified schema table in
  Some (lit "CREATE TABLE " ++ full ++ lit " (" ++ nl ++ join (lit "," ++ nl) cols ++ nl ++ lit ")").

(** ** Exceptions, external calls and the program state *)

(** An exception object: its class name and its [str(e)]. *)
Record exn : Type := mkExn { exn_class : str; exn_str : str }.

Global Instance exn_eq_dec : EqDecision exn.
Proof. solve_decision. Defined.

Definition dsn : Type := str * Z * str.

(** [oracledb.makedsn(host, port, service_name=service)] *)
Definition makedsn (host : str) (port : Z) (service : str) : dsn := (host, port, service).

(** The session object; [username] is [conn.username]. *)
Record Connection : Type := mkConnection { username : str }.

(** What the program does to the outside, in program order, each database
    call with what it answered. *)
Inductive event : Type :=
| EvConnect (user password : str) (d : dsn) (r : exn + Connection)
| EvExecute (sql : str) (binds : list (str * str)) (r : option exn)
| EvFetchone (r : exn + Z)
| EvExecutemany (sql : str) (rows : list (list cell)) (r : option exn)
| EvCommit (r : option exn)
| EvSuccess (msg : str)
| EvError (msg : str)
| EvDataframe (df : DataFrame)
| EvStop
| EvLogException (msg : str) (e : exn).

(** The environment: what the database driver answers to a call made after
    a given history, what the pandas readers make of a file's bytes, and
    the text of the error with which Arrow refuses a frame whose column
    labels repeat.  [inl e] and [Some e] are a raised exception. *)
Class World := {
  oracledb_connect : list event -> str -> str -> dsn -> exn + Connection;
  cursor_execute : list event -> str -> list (str * str) -> option exn;
  cursor_fetchone : list event -> exn + Z;
  cursor_executemany : list event -> str -> list (list cell) -> option exn;
  connection_commit : list event -> option exn;
  pd_read_csv : list N -> exn + DataFrame;
  pd_read_excel : list N -> exn + DataFrame;
  duplicate_columns : list str -> str
}.

(** References to frames. *)
Abbreviation loc := positive.

(** The object store for frames and the record of events so far. *)
Record State : Type := mkState {
  heap : gmap positive DataFrame;
  events : list event
}.

(** How a piece of the script ends: with a value, with a raised
    [Exception], or with Streamlit's stop signal, which is a [BaseException]
    and so passes [except Exception]. *)
Inductive outcome (A : Type) : Type :=
| Ok (a : A)
| Raise (e : exn)
| Stopped.
Arguments Ok {A} a.
Arguments Raise {A} e.
Arguments Stopped {A}.

Definition M (A : Type) : Type := State -> outcome A * State.

Global Instance M_ret : MRet M := fun A a st => (Ok a, st).

Global Instance M_bind : MBind M := fun A B f m st =>
  match m st with
  | (Ok a, st') => f a st'
  | (Raise e, st') => (Raise e, st')
  | (Stopped, st') => (Stopped, st')
  end.

Definition raise {A} (e : exn) : M A := fun st => (Raise e, st).

Definition emit (ev : event) : M unit :=
  fun st => (Ok tt, mkState (heap st) (events st ++ [ev])).

Definition history : M (list event) := fun st => (Ok (events st), st).

(** [try: body  except Exception as e: handler] *)
Definition try_except {A} (body : M A) (handler : exn -> M A) : M A :=
  fun st =>
    match body st with
    | (Raise e, st') => handler e st'
    | r => r
    end.

(** A new object. *)
Definition alloc (df : DataFrame) : M loc :=
  fun st =>
    let l := fresh (dom (heap st)) in
    (Ok l, mkState (<[l := df]> (heap st)) (events st)).

(** Reading through a reference.  A reference held by the program is always
    live, so the error branch is never taken on a reachable state. *)
Definition deref (l : loc) : M DataFrame :=
  fun st =>
    match heap st !! l with
    | Some df => (Ok df, st)
    | None => (Raise (mkExn (lit "ReferenceError") []), st)
    end.

(** Overwriting the object behind a reference. *)
Definition assign (l : loc) (df : DataFrame) : M unit :=
  fun st => (Ok tt, mkState (<[l := df]> (heap st)) (events st)).

(** [df.copy()] *)
Definition copy (l : loc) : M loc := df ← deref l; alloc df.

(** [df.columns = new], on the object itself. *)
Definition setattr_columns (l : loc) (new : list str) : M unit :=
  df ← deref l;
  match set_columns new df with
  | Some df' => assign l df'
  | None => raise (mkExn (lit "ValueError") (lit "Length mismatch"))
  end.

(** [list(df.columns)] *)
Definition getattr_columns (l : loc) : M (list str) := df ← deref l; mret (columns df).

Definition st_success (msg : str) : M unit := emit (EvSuccess msg).
Definition st_error (msg : str) : M unit := emit (EvError msg).

(** [st.dataframe(df)]: Streamlit hands the frame to Arrow, which raises
    [ValueError] for one whose column labels repeat; nothing is shown
    then. *)
Definition st_dataframe `{World} (df : DataFrame) : M unit :=
  if bool_decide (NoDup (columns df)) then emit (EvDataframe df)
  else raise (mkExn (lit "ValueError") (duplicate_columns (columns df))).

Definition st_stop : M unit := fun st => (Stopped, mkState (heap st) (events st ++ [EvStop])).

(** [logger.exception(msg)] inside a handler: the message with the active
    exception and its traceback. *)
Definition logger_exception (msg : str) (e : exn) : M unit := emit (EvLogException msg e).

Record UploadedFile : Type := mkUploadedFile { name : str; content : list N }.

Section Program.
Context `{UnicodeData} `{World}.

Definition sanitize_columns (df : loc) : M loc :=
  df ← copy df;
  cols ← getattr_columns df;
  setattr_columns df (map sanitize_identifier cols);;
  mret df.

(** ** Oracle *)

Definition get_connection (user password host : str) (port : Z) (service : str)
  : M Connection :=
  let d := makedsn host port service in
  h ← history;
  let r := oracledb_connect h user password d in
  emit (EvConnect user password d r);;
  match r with
  | inl e => raise e
  | inr conn => mret conn
  end.

(** [cur.execute(sql, binds)] *)
Definition execute (sql : str) (binds : list (str * str)) : M unit :=
  h ← history;
  let r := cursor_execute h sql binds in
  emit (EvExecute sql binds r);;
  match r with
  | Some e => raise e
  | None => mret tt
  end.

(** [cur.fetchone()[0]] *)
Definition fetchone0 : M Z :=
  h ← history;
  let r := cursor_fetchone h in
  emit (EvFetchone r);;
  match r with
  | inl e => raise e
  | inr n => mret n
  end.

(** [cur.executemany(sql, rows)] *)
Definition executemany (sql : str) (rows : list (list cell)) : M unit :=
  h ← history;
  let r := cursor_executemany h sql rows in
  emit (EvExecutemany sql rows r);;
  match r with
  | Some e => raise e
  | None => mret tt
  end.

(** [conn.commit()] *)
Definition commit : M unit :=
  h ← history;
  let r := connection_commit h in
  emit (EvCommit r);;
  match r with
  | Some e => raise e
  | None => mret tt
  end.

Definition indent (n : nat) : str := replicate n 32.

(** The catalog query, as the triple-quoted literal has it. *)
Definition table_exists_sql : str :=
  nl ++ indent 8 ++ lit "SELECT COUNT(*) FROM ALL_TABLES" ++
  nl ++ indent 8 ++ lit "WHERE OWNER = :o AND TABLE_NAME = :t" ++
  nl ++ indent 4.

(** [schema.upper() if schema else conn.username.upper()] *)
Definition owner_of (conn : Connection) (schema : option str) : str :=
  match schema with
  | Some s => if truthy schema then upper s else upper (username conn)
  | None => upper (username conn)
  end.

Definition table_exists (conn : Connection) (schema : option str) (table : str) : M bool :=
  let owner := owner_of conn schema in
  execute table_exists_sql [(lit "o", owner); (lit "t", table)];;
  n ← fetchone0;
  mret (0 <? n)%Z.

Definition create_table (conn : Connection) (schema : option str) (table : str) (df : loc)
  : M unit :=
  d ← deref df;
  match build_create_table_sql schema table d with
  | Some sql => execute sql []
  | None => raise (mkExn (lit "KeyError") [])
  end.

(** The statement text and the rows that [insert_dataframe] hands to
    [executemany]. *)
Definition insert_statement (schema : option str) (table : str) (df : DataFrame)
  : str * list (list cell) :=
  let df := where_ df (notnull_frame df) in
  let cols := columns df in
  let binds := join (lit ",") (map (fun i => lit ":" ++ decimal (i + 1)) (seq 0 (length cols))) in
  let full := qualified schema table in
  let sql := lit "INSERT INTO " ++ full ++ lit " (" ++ join (lit ",") cols ++
             lit ") VALUES (" ++ binds ++ lit ")" in
  (sql, values_tolist df).

Definition insert_dataframe (conn : Connection) (schema : option str) (table : str) (df : loc)
  : M unit :=
  d ← deref df;
  let stmt := insert_statement schema table d in
  executemany (fst stmt) (snd stmt).

(** ** File *)

(** [uploaded_file.seek(0)] only rewinds the stream. *)
Definition read_file (uploaded_file : UploadedFile) : M loc :=
  let r := if endswith (name uploaded_file) (lit ".csv")
           then pd_read_csv (content uploaded_file)
           else pd_read_excel (content uploaded_file) in
  match r with
  | inl e => raise e
  | inr df => alloc df
  end.

End Program.

(** ** The Streamlit script *)

(** What the widgets return on one run of the script. *)
Record Inputs : Type := mkInputs {
  host : str;
  port : Z;
  service : str;
  user : str;
  password : str;
  schema : str;
  uploaded_file : option UploadedFile;
  table_name : str;
  create_if_missing : bool;
  button : bool
}.

Section Script.
Context `{UnicodeData} `{World}.

(** Evaluating the global [df], bound only when a file was uploaded. *)
Definition global_df (df : option loc) : M loc :=
  match df with
  | Some l => mret l
  | None => raise (mkExn (lit "NameError") (lit "name 'df' is not defined"))
  end.

Definition check_mark : char := 9989.

(** The body of [if st.button(...)]. *)
Definition upload (inp : Inputs) (df : option loc) : M unit :=
  try_except
    (conn ← get_connection (user inp) (password inp) (host inp) (port inp) (service inp);
     exists_ ← table_exists conn (Some (schema inp)) (table_name inp);
     (if negb exists_ then
        (if negb (create_if_missing inp)
         then st_error (lit "Table does not exist");; st_stop
         else mret tt);;
        d ← global_df df;
        create_table conn (Some (schema inp)) (table_name inp) d;;
        commit;;
        st_success (lit "Table created")
      else mret tt);;
     d ← global_df df;
     insert_dataframe conn (Some (schema inp)) (table_name inp) d;;
     commit;;
     st_success (lit "Data inserted successfully " ++ [check_mark]))
    (fun e =>
       logger_exception (lit "Upload failed") e;;
       st_error (exn_str e)).

(** One run of the script, from the file uploader on. *)
Definition script (inp : Inputs) : M unit :=
  df ← match uploaded_file inp with
       | Some f =>
           raw ← read_file f;
           df ← sanitize_columns raw;
           d ← deref df;
           st_success (lit "Loaded " ++ decimal (len d) ++ lit " rows");;
           st_dataframe (head d);;
           mret (Some df)
       | None => mret None
       end;
  if button inp then upload inp df else mret tt.

End Script.

(** ** Reading the record of events *)

Definition has_prefix (p s : str) : bool := bool_decide (take (length p) s = p).

Definition is_create_table (ev : event) : bool :=
  match ev with
  | EvExecute sql _ _ => has_prefix (lit "CREATE TABLE ") sql
  | _ => false
  end.

Definition is_insert (ev : event) : bool :=
  match ev with
  | EvExecutemany sql _ _ => has_prefix (lit "INSERT INTO ") sql
  | _ => false
  end.

Definition is_commit (ev : event) : bool :=
  match ev with
  | EvCommit _ => true
  | _ => false
  end.

(** The exception a database call answered with, if it did. *)
Definition failure (ev : event) : option exn :=
  match ev with
  | EvConnect _ _ _ (inl e) => Some e
  | EvExecute _ _ (Some e) => Some e
  | EvFetchone (inl e) => Some e
  | EvExecutemany _ _ (Some e) => Some e
  | EvCommit (Some e) => Some e
  | _ => None
  end.

Definition call_ok (ev : event) : bool :=
  match failure ev with
  | Some _ => false
  | None => true
  end.

Definition count (p : event -> bool) (evs : list event) : nat :=
  length (List.filter p evs).

(** The events a run added to the record. *)
Definition added (st st' : State) : list event := drop (length (events st)) (events st').

(** After the first failed call nothing follows but the log entry and the
    message shown to the user; a log entry is always followed by just that
    message. *)
Fixpoint reported (evs : list event) : Prop :=
  match evs with
  | [] => True
  | ev :: rest =>
      match failure ev, ev with
      | Some e, _ => rest = [EvLogException (lit "Upload failed") e; EvError (exn_str e)]
      | None, EvLogException msg e => msg = lit "Upload failed" /\ rest = [EvError (exn_str e)]
      | None, _ => reported rest
      end
  end.

(** ** The statements as the specification words them *)

(** A column definition: the column's name with the type inferred for it. *)
Definition column_definitions (df : DataFrame) : list (str * str) :=
  map (fun ls => (fst ls, infer_oracle_type (SelSeries (snd ls)))) (labelled df).

(** One [name type] line per definition, a comma after each but the last. *)
Fixpoint column_lines (defs : list (str * str)) : str :=
  match defs with
  | [] => []
  | [d] => fst d ++ lit " " ++ snd d
  | d :: rest => fst d ++ lit " " ++ snd d ++ lit "," ++ nl ++ column_lines rest
  end.

(** [[schema.]] *)
Definition schema_prefix (schema : option str) : str :=
  match schema with
  | Some (c :: s) => (c :: s) ++ lit "."
  | _ => []
  end.

(** [CREATE TABLE [schema.]table (\n col1 type1,\n col2 type2\n)] *)
Definition create_table_text (schema : option str) (table : str) (defs : list (str * str)) : str :=
  lit "CREATE TABLE " ++ schema_prefix schema ++ table ++ lit " (" ++ nl ++
  column_lines defs ++ nl ++ lit ")".

(** [:1,:2,...,:n] *)
Fixpoint bind_list (k n : nat) : str :=
  match n with
  | O => []
  | S O => lit ":" ++ decimal k
  | S n' => lit ":" ++ decimal k ++ lit "," ++ bind_list (S k) n'
  end.

(** [INSERT INTO [schema.]table (c1,c2,...) VALUES (:1,:2,...)] *)
Definition insert_text (schema : option str) (table : str) (cols : list str) : str :=
  lit "INSERT INTO " ++ schema_prefix schema ++ table ++ lit " (" ++ join (lit ",") cols ++
  lit ") VALUES (" ++ bind_list 1 (length cols) ++ lit ")".

(** ** Sample data *)

Definition people : DataFrame :=
  mkDataFrame 2
    [ (lit "ID", mkSeries int64 [VInt 1; VInt 2]);
      (lit "NAME", mkSeries object_ [VStr (lit "ann"); VNone]) ].

(** A column of two missing numbers, as a reader makes of an empty column. *)
Definition all_nan_column : Series := mkSeries float64 [VNaN; VNaN].

Definition scores : DataFrame :=
  mkDataFrame 2
    [ (lit "who", mkSeries object_ [VStr (lit "ann"); VStr (lit "bob")]);
      (lit "2nd try", all_nan_column) ].

Definition scott : Connection := mkConnection (lit "scott").

(** Arrow's wording for labels of letters, digits and underscores. *)
Definition duplicate_columns_found (cols : list str) : str :=
  lit "Duplicate column names found: [" ++
  join (lit ", ") (map (fun c => lit "'" ++ c ++ lit "'") cols) ++ lit "]".

(** A database that accepts every call and whose catalog counts [n] tables
    of the name asked for; both readers answer [parsed]. *)
Definition accepting (n : Z) (parsed : exn + DataFrame) : World := {|
  oracledb_connect := fun _ _ _ _ => inr scott;
  cursor_execute := fun _ _ _ => None;
  cursor_fetchone := fun _ => inr n;
  cursor_executemany := fun _ _ _ => None;
  connection_commit := fun _ => None;
  pd_read_csv := fun _ => parsed;
  pd_read_excel := fun _ => parsed;
  duplicate_columns := duplicate_columns_found
|}.

Definition login_denied : exn :=
  mkExn (lit "DatabaseError") (lit "ORA-01017: invalid username/password; logon denied").

(** A database that refuses the connection. *)
Definition rejecting (e : exn) : World := {|
  oracledb_connect := fun _ _ _ _ => inl e;
  cursor_execute := fun _ _ _ => None;
  cursor_fetchone := fun _ => inr 0%Z;
  cursor_executemany := fun _ _ _ => None;
  connection_commit := fun _ => None;
  pd_read_csv := fun _ => inr people;
  pd_read_excel := fun _ => inr people;
  duplicate_columns := duplicate_columns_found
|}.

Definition csv_file : UploadedFile := mkUploadedFile (lit "data.csv") [].

Definition parse_error : exn :=
  mkExn (lit "ParserError") (lit "Error tokenizing data").

Definition form (file : option UploadedFile) (create pressed : bool) : Inputs :=
  mkInputs (lit "localhost") 1521 (lit "FREEPDB1") (lit "scott") (lit "tiger") []
    file (lit "T") create pressed.

Definition empty_state : State := mkState ∅ [].

(** A state in which [people] is the frame behind reference 1. *)
Definition loaded : State := mkState {[ 1%positive := people ]} [].


(** ** Logging

    Loggers live in the process-wide registry of [logging], by name.  A
    handler is created by its constructor and is a new object each time.
    The registry records what each logger holds itself: its level, its
    handlers and its propagate flag.  The links from a logger to its parent,
    which [logging] derives from the dotted names, and the effective level
    that a logger without a level of its own takes from its ancestors are
    not represented; the properties below speak of the named logger only. *)

Record Formatter : Type := mkFormatter { fmt : str; datefmt : str }.

Inductive Handler : Type :=
| StreamHandler (formatter : option Formatter)
| RotatingFileHandler (filename : str) (maxBytes backupCount : N)
    (formatter : option Formatter).

Record Logger : Type := mkLogger {
  level : N;
  handlers : list Handler;
  propagate : bool
}.

Global Instance Formatter_eq_dec : EqDecision Formatter.
Proof. solve_decision. Defined.
Global Instance Handler_eq_dec : EqDecision Handler.
Proof. solve_decision. Defined.
Global Instance Logger_eq_dec : EqDecision Logger.
Proof. solve_decision. Defined.

Definition NOTSET : N := 0.
Definition INFO : N := 20.
Definition WARNING : N := 30.

(** The name under which [logging.getLogger(name)] looks: the root logger
    for an empty name. *)
Definition logger_key (name : str) : str :=
  if bool_decide (name = []) then lit "root" else name.

(** A logger as [logging] first makes it: no handlers, propagating, level
    NOTSET (WARNING for the root). *)
Definition new_logger (key : str) : Logger :=
  mkLogger (if bool_decide (key = lit "root") then WARNING else NOTSET) [] true.

(** [logging.getLogger(name)]: the registered logger, made on first use,
    with the attributes it holds itself. *)
Definition getLogger (name : str) (reg : gmap str Logger)
  : Logger * gmap str Logger :=
  let key := logger_key name in
  match reg !! key with
  | Some lg => (lg, reg)
  | None => (new_logger key, <[key := new_logger key]> reg)
  end.

(** [logger.setLevel(lvl)] *)
Definition setLevel (lvl : N) (lg : Logger) : Logger :=
  mkLogger lvl (handlers lg) (propagate lg).

(** [logger.addHandler(h)] for a handler that was just created. *)
Definition addHandler (h : Handler) (lg : Logger) : Logger :=
  mkLogger (level lg) (handlers lg ++ [h]) (propagate lg).

(** [logger.propagate = b] *)
Definition set_propagate (b : bool) (lg : Logger) : Logger :=
  mkLogger (level lg) (handlers lg) b.

(** [h.setFormatter(f)] *)
Definition setFormatter (f : Formatter) (h : Handler) : Handler :=
  match h with
  | StreamHandler _ => StreamHandler (Some f)
  | RotatingFileHandler file size backups _ => RotatingFileHandler file size backups (Some f)
  end.

(** Whether the log file can be opened for appending; [Some e] is the
    [OSError] that [RotatingFileHandler] raises when it cannot. *)
Class LogFiles := { open_append : str -> option exn }.

(** The result is the logger's name in the registry, or the exception
    raised on the way. *)
Definition get_logger `{LogFiles} (name : str) (reg : gmap str Logger)
  : (exn + str) * gmap str Logger :=
  let key := logger_key name in
  let '(logger, reg) := getLogger name reg in
  if bool_decide (handlers logger <> []) then (inr key, reg)
  else
    let reg := alter (setLevel INFO) key reg in
    let formatter :=
      mkFormatter (lit "%(asctime)s | %(levelname)s | %(message)s")
                  (lit "%Y-%m-%d %H:%M:%S") in
    let ch := StreamHandler None in
    let ch := setFormatter formatter ch in
    match open_append (lit "app.log") with
    | Some e => (inl e, reg)
    | None =>
        let fh := RotatingFileHandler (lit "app.log") 2000000 3 None in
        let fh := setFormatter formatter fh in
        let reg := alter (addHandler ch) key reg in
        let reg := alter (addHandler fh) key reg in
        let reg := alter (set_propagate false) key reg in
        (inr key, reg)
    end.

(** The two handlers that [get_logger] registers. *)
Definition app_handlers : list Handler :=
  let formatter :=
    mkFormatter (lit "%(asctime)s | %(levelname)s | %(message)s")
                (lit "%Y-%m-%d %H:%M:%S") in
  [ StreamHandler (Some formatter);
    RotatingFileHandler (lit "app.log") 2000000 3 (Some formatter) ].

Definition writable : LogFiles := {| open_append := fun _ => None |}.

Definition read_only (e : exn) : LogFiles := {| open_append := fun _ => Some e |}.

Definition permission_denied : exn :=
  mkExn (lit "PermissionError") (lit "[Errno 13] Permission denied: 'app.log'").

(** ** More on text *)

(** ASCII letters, digits and the underscore. *)
Definition word_char (c : char) : bool := ident_char c || is_lower_az c.

Definition ascii_upper (c : char) : char := if is_lower_az c then c - 32 else c.

(** Is the event a call to the database driver? *)
Definition is_call (ev : event) : bool :=
  match ev with
  | EvConnect _ _ _ _ | EvExecute _ _ _ | EvFetchone _
  | EvExecutemany _ _ _ | EvCommit _ => true
  | _ => false
  end.

Definition is_executemany (ev : event) : bool :=
  match ev with
  | EvExecutemany _ _ _ => true
  | _ => false
  end.

(** What the sanitizer makes of one ASCII character. *)
Definition ascii_sub (c : char) : char :=
  if ident_char (ascii_upper c) then ascii_upper c else underscore.

(** The underscore put before a leading digit. *)
Definition guard_digit (s : str) : str :=
  if starts_with_digit s then underscore :: s else s.

(** The three column types the program knows. *)
Definition oracle_types : list str :=
  [lit "NUMBER"; lit "TIMESTAMP"; lit "VARCHAR2(4000)"].

(** The frame with its labels sanitized, columns and index as they were. *)
Definition relabelled `{UnicodeData} (df : DataFrame) : DataFrame :=
  mkDataFrame (index_len df)
    (zip (map sanitize_identifier (columns df)) (map snd (labelled df))).

(** What the reader chosen by the file's name makes of the file. *)
Definition parsed_by_name `{World} (f : UploadedFile) : exn + DataFrame :=
  if endswith (name f) (lit ".csv")
  then pd_read_csv (content f)
  else pd_read_excel (content f).

Definition name_error : exn := mkExn (lit "NameError") (lit "name 'df' is not defined").

(** A database that accepts every call but the batch insert; its catalog
    counts [n] tables of the name asked for. *)
Definition insert_refusing (n : Z) (e : exn) : World := {|
  oracledb_connect := fun _ _ _ _ => inr scott;
  cursor_execute := fun _ _ _ => None;
  cursor_fetchone := fun _ => inr n;
  cursor_executemany := fun _ _ _ => Some e;
  connection_commit := fun _ => None;
  pd_read_csv := fun _ => inr scores;
  pd_read_excel := fun _ => inr scores;
  duplicate_columns := duplicate_columns_found
|}.

Definition value_too_large : exn :=
  mkExn (lit "DatabaseError") (lit "ORA-12899: value too large for column").

Definition no_columns : DataFrame := mkDataFrame 3 [].

(** A frame whose second row has neither a name nor a score: the names in
    a column of Python objects, the scores in a column of floats. *)
Definition measurements : DataFrame :=
  mkDataFrame 2
    [ (lit "NAME", mkSeries object_ [VStr (lit "ann"); VNaN]);
      (lit "SCORE", mkSeries float64 [VFloat 3 (-1); VNaN]) ].

(** Counts next to measurements: a column of integers and one of floats. *)
Definition readings : DataFrame :=
  mkDataFrame 2
    [ (lit "N", mkSeries int64 [VInt 1; VInt 2]);
      (lit "SCORE", mkSeries float64 [VFloat 3 (-1); VNaN]) ].


(** * Properties *)

(** ** Characters and the sanitizer *)

Ltac bool_arith :=
  unfold ident_char, ident_head, is_upper_AZ, is_lower_az, is_digit_09, underscore in *;
  repeat match goal with
    | H : _ && _ = true |- _ => apply andb_prop in H; destruct H
    | H : _ || _ = true |- _ => apply orb_prop in H; destruct H
    | H : _ || _ = false |- _ => apply orb_false_elim in H; destruct H
    | H : (_ <=? _) = true |- _ => apply N.leb_le in H
    | H : (_ <=? _) = false |- _ => apply N.leb_gt in H
    | H : (_ <? _) = true |- _ => apply N.ltb_lt in H
    | H : (_ <? _) = false |- _ => apply N.ltb_ge in H
    | H : (_ =? _) = true |- _ => apply N.eqb_eq in H
    | H : (_ =? _) = false |- _ => apply N.eqb_neq in H
    end.

Lemma ident_char_ascii c : ident_char c = true -> c < 128.
Proof. intros Hc. bool_arith; lia. Qed.

Lemma ident_char_cases c :
  ident_char c = true -> is_digit_09 c = true \/ ident_head c = true.
Proof.
  unfold ident_char, ident_head. intros Hc.
  destruct (is_upper_AZ c), (is_digit_09 c), (c =? underscore); auto.
Qed.

Lemma ident_head_char c : ident_head c = true -> ident_char c = true.
Proof.
  unfold ident_char, ident_head.
  destruct (is_upper_AZ c), (is_digit_09 c), (c =? underscore); auto.
Qed.

Lemma ident_head_not_digit c : ident_head c = true -> is_digit_09 c = false.
Proof.
  intros Hc. destruct (is_digit_09 c) eqn:Hd; [|done].
  bool_arith; lia.
Qed.

Section SanitizerFacts.
Context `{UnicodeData}.

Lemma re_digit_ident c : ident_char c = true -> re_digit c = is_digit_09 c.
Proof.
  intros Hc. unfold re_digit.
  apply ident_char_ascii, N.ltb_lt in Hc. by rewrite Hc.
Qed.

Lemma isspace_ident c : ident_char c = true -> isspace c = false.
Proof.
  intros Hc. unfold isspace.
  destruct (c <? 128) eqn:Hlt.
  - apply orb_false_intro; [apply orb_false_intro|].
    + apply andb_false_iff. right. apply N.leb_gt. bool_arith; lia.
    + apply andb_false_iff. right. apply N.leb_gt. bool_arith; lia.
    + apply N.eqb_neq. bool_arith; lia.
  - apply ident_char_ascii, N.ltb_lt in Hc. congruence.
Qed.

Lemma toupper_ident c : ident_char c = true -> toupper c = [c].
Proof.
  intros Hc. unfold toupper.
  pose proof (ident_char_ascii c Hc) as Hlt. apply N.ltb_lt in Hlt. rewrite Hlt.
  destruct (is_lower_az c) eqn:Hl; [|done].
  bool_arith; lia.
Qed.

Lemma re_sub_class_ident s :
  Forall (fun c => ident_char c = true)
    (re_sub_class (fun c => negb (ident_char c)) [underscore] s).
Proof.
  induction s as [|c s IH]; simpl; [constructor|].
  destruct (ident_char c) eqn:Hc; simpl; constructor; auto.
Qed.

Lemma re_sub_class_length s :
  length (re_sub_class (fun c => negb (ident_char c)) [underscore] s) = length s.
Proof.
  induction s as [|c s IH]; simpl; [done|].
  destruct (ident_char c); simpl; by f_equal.
Qed.

Lemma re_sub_class_fixed s :
  Forall (fun c => ident_char c = true) s ->
  re_sub_class (fun c => negb (ident_char c)) [underscore] s = s.
Proof.
  induction 1 as [|c s Hc _ IH]; simpl; [done|].
  rewrite Hc. simpl. by f_equal.
Qed.

Lemma upper_fixed s :
  Forall (fun c => ident_char c = true) s -> upper s = s.
Proof.
  induction 1 as [|c s Hc _ IH]; simpl; [done|].
  rewrite (toupper_ident c Hc). simpl. by f_equal.
Qed.

Lemma lstrip_fixed s :
  Forall (fun c => ident_char c = true) s -> lstrip s = s.
Proof.
  destruct 1 as [|c s Hc _]; simpl; [done|].
  by rewrite (isspace_ident c Hc).
Qed.

Lemma strip_fixed s :
  Forall (fun c => ident_char c = true) s -> strip s = s.
Proof.
  intros Hs. unfold strip, rstrip.
  rewrite (lstrip_fixed s Hs).
  rewrite lstrip_fixed; [apply rev_involutive|].
  by apply List.Forall_rev.
Qed.

(** The name just before truncation: legal characters only, and no digit
    in front. *)
Lemma guarded_ident s :
  Forall (fun c => ident_char c = true) s ->
  Forall (fun c => ident_char c = true)
    (if re_match_class re_digit s then underscore :: s else s).
Proof.
  intros Hs. destruct (re_match_class re_digit s); [|done].
  constructor; [reflexivity|done].
Qed.

Lemma guarded_head s :
  Forall (fun c => ident_char c = true) s ->
  match (if re_match_class re_digit s then underscore :: s else s) with
  | c :: _ => ident_head c = true
  | [] => s = []
  end.
Proof.
  intros Hs.
  destruct s as [|c s]; simpl; [done|].
  inversion Hs as [|? ? Hc _]; subst.
  rewrite (re_digit_ident c Hc).
  destruct (is_digit_09 c) eqn:Hd; [reflexivity|].
  destruct (ident_char_cases c Hc); congruence.
Qed.

Lemma sanitize_identifier_unfold x :
  sanitize_identifier x =
  let name := re_sub_class (fun c => negb (ident_char c)) [underscore] (upper (strip x)) in
  take MAX_IDENTIFIER_LEN (if re_match_class re_digit name then underscore :: name else name).
Proof. reflexivity. Qed.

Lemma sanitize_identifier_ident x :
  Forall (fun c => ident_char c = true) (sanitize_identifier x).
Proof.
  rewrite sanitize_identifier_unfold.
  apply Forall_take, guarded_ident, re_sub_class_ident.
Qed.

Lemma sanitize_identifier_length x :
  (length (sanitize_identifier x) <= 30)%nat.
Proof.
  rewrite sanitize_identifier_unfold, length_take.
  unfold MAX_IDENTIFIER_LEN. lia.
Qed.

Lemma sanitize_identifier_head x :
  match sanitize_identifier x with
  | c :: _ => ident_head c = true
  | [] => upper (strip x) = []
  end.
Proof.
  rewrite sanitize_identifier_unfold. cbv zeta.
  set (name := re_sub_class _ _ _).
  pose proof (guarded_head name (re_sub_class_ident (upper (strip x)))) as Hh.
  destruct (if re_match_class re_digit name then _ else _) as [|c s]; simpl.
  - apply nil_length_inv. rewrite <- re_sub_class_length. fold name. by rewrite Hh.
  - done.
Qed.

End SanitizerFacts.

Lemma fullmatch_upto n s :
  Forall (fun c => ident_char c = true) s -> (length s <= n)%nat ->
  fullmatch (re_upto n (ReClass ident_char)) s.
Proof.
  revert s. induction n as [|n IH]; intros s Hs Hlen.
  - destruct s; simpl in *; [constructor|lia].
  - destruct s as [|c s]; simpl.
    + apply FmAltL. constructor.
    + inversion Hs; subst. apply FmAltR.
      apply (FmCat _ _ [c] s); [by constructor|].
      apply IH; [done|simpl in *; lia].
Qed.

Lemma fullmatch_star s :
  Forall (fun c => ident_char c = true) s -> fullmatch charset_re s.
Proof.
  induction 1 as [|c s Hc _ IH]; [constructor|].
  apply (FmStarApp _ [c] s); [by constructor|done].
Qed.

Lemma fullmatch_identifier_nonempty s : fullmatch identifier_re s -> s <> [].
Proof.
  unfold identifier_re. inversion 1 as [| |? ? s1 s2 H1 H2| | | |]; subst.
  inversion H1; subst. done.
Qed.

(** C3.  Whatever the input, the sanitized name is empty exactly when the
    trimmed, upper-cased input is empty, and otherwise matches
    [^[A-Z_][A-Z0-9_]{0,29}$]; in every case it matches [^[A-Z0-9_]*$] and
    does not start with a digit. *)
Theorem sanitize_identifier_matches `{UnicodeData} (x : str) :
  (upper (strip x) = [] -> sanitize_identifier x = []) /\
  (upper (strip x) <> [] -> fullmatch identifier_re (sanitize_identifier x)) /\
  fullmatch charset_re (sanitize_identifier x) /\
  starts_with_digit (sanitize_identifier x) = false.
Proof.
  pose proof (sanitize_identifier_ident x) as Hid.
  pose proof (sanitize_identifier_length x) as Hlen.
  pose proof (sanitize_identifier_head x) as Hhd.
  split; [|split; [|split]].
  - intros Hx. rewrite sanitize_identifier_unfold, Hx. reflexivity.
  - intros Hx. destruct (sanitize_identifier x) as [|c s]; [done|].
    inversion Hid; subst. unfold identifier_re.
    apply (FmCat _ _ [c] s); [by constructor|].
    apply fullmatch_upto; [done|simpl in Hlen; lia].
  - by apply fullmatch_star.
  - destruct (sanitize_identifier x) as [|c s]; [done|].
    simpl. by apply ident_head_not_digit.
Qed.

(** C4.  Sanitizing a sanitized name changes nothing, and a sanitized name
    has at most 30 characters. *)
Theorem sanitize_identifier_idempotent `{UnicodeData} (x : str) :
  sanitize_identifier (sanitize_identifier x) = sanitize_identifier x /\
  (length (sanitize_identifier x) <= 30)%nat.
Proof.
  pose proof (sanitize_identifier_ident x) as Hid.
  pose proof (sanitize_identifier_length x) as Hlen.
  pose proof (sanitize_identifier_head x) as Hhd.
  split; [|done].
  set (r := sanitize_identifier x) in *.
  rewrite (sanitize_identifier_unfold r). cbv zeta.
  rewrite (strip_fixed r Hid), (upper_fixed r Hid), (re_sub_class_fixed r Hid).
  assert ((if re_match_class re_digit r then underscore :: r else r) = r) as ->.
  { destruct r as [|c s]; [done|]. simpl.
    inversion Hid; subst.
    rewrite re_digit_ident by done.
    by rewrite ident_head_not_digit. }
  apply take_ge. unfold MAX_IDENTIFIER_LEN. lia.
Qed.

(** ** Type inference *)

(** C5 (as the code has it).  The type depends on the column's dtype alone,
    by the decision order integer, floating point, date/time, anything else;
    text, boolean and object columns are among the last.  The values play no
    part: a column of nothing but missing values goes by its dtype like any
    other column. *)
Theorem infer_oracle_type_decision (col : Series) :
  (is_integer_dtype (SelSeries col) = true ->
     infer_oracle_type (SelSeries col) = lit "NUMBER") /\
  (is_integer_dtype (SelSeries col) = false ->
   is_float_dtype (SelSeries col) = true ->
     infer_oracle_type (SelSeries col) = lit "NUMBER") /\
  (is_integer_dtype (SelSeries col) = false ->
   is_float_dtype (SelSeries col) = false ->
   is_datetime64_any_dtype (SelSeries col) = true ->
     infer_oracle_type (SelSeries col) = lit "TIMESTAMP") /\
  (is_integer_dtype (SelSeries col) = false ->
   is_float_dtype (SelSeries col) = false ->
   is_datetime64_any_dtype (SelSeries col) = false ->
     infer_oracle_type (SelSeries col) = lit "VARCHAR2(4000)") /\
  (dtype col ∈ [object_; StringDtype; bool_; BooleanDtype] ->
     infer_oracle_type (SelSeries col) = lit "VARCHAR2(4000)") /\
  (forall vs, infer_oracle_type (SelSeries (mkSeries (dtype col) vs)) =
              infer_oracle_type (SelSeries col)).
Proof.
  unfold infer_oracle_type.
  repeat split.
  - by intros ->.
  - by intros -> ->.
  - by intros -> -> ->.
  - by intros -> -> ->.
  - intros Hd. destruct col as [d vs]. simpl in *.
    repeat (apply elem_of_cons in Hd as [->|Hd]; [reflexivity|]).
    by apply elem_of_nil in Hd.
Qed.

Lemma infer_oracle_type_decision_witness :
  infer_oracle_type (SelSeries (mkSeries object_ [VNone; VNone])) = lit "VARCHAR2(4000)".
Proof.
  apply (proj1 (proj2 (proj2 (proj2 (proj2
    (infer_oracle_type_decision (mkSeries object_ [VNone; VNone]))))))).
  simpl. apply list_elem_of_here.
Defined.

(** C5 as stated fails: a floating-point column holding only missing values
    is typed NUMBER, not VARCHAR2(4000). *)
Lemma all_null_column_is_number :
  all_null all_nan_column = true /\
  infer_oracle_type (SelSeries all_nan_column) = lit "NUMBER" /\
  infer_oracle_type (SelSeries all_nan_column) <> lit "VARCHAR2(4000)".
Proof. repeat split. discriminate. Qed.

(** ** DDL builder *)

Lemma filter_no_match (l : list (str * Series)) (c : str) :
  c ∉ map fst l -> filter (fun x => fst x = c) l = [].
Proof.
  induction l as [|a l IH]; intros Hc; [done|].
  simpl in Hc. apply not_elem_of_cons in Hc as [Hne Hc].
  rewrite filter_cons_False by (intros Heq; by apply Hne).
  by apply IH.
Qed.

Lemma elem_of_labels (l : list (str * Series)) (ls : str * Series) :
  ls ∈ l -> fst ls ∈ map fst l.
Proof. intros Hin. apply list_elem_of_In, in_map, list_elem_of_In, Hin. Qed.

Lemma filter_unique_label (l : list (str * Series)) (ls : str * Series) :
  NoDup (map fst l) -> ls ∈ l ->
  filter (fun x => fst x = fst ls) l = [ls].
Proof.
  induction l as [|a l IH]; intros Hnd Hin; [by apply elem_of_nil in Hin|].
  simpl in Hnd. apply NoDup_cons in Hnd as [Hna Hnd].
  apply elem_of_cons in Hin as [->|Hin].
  - rewrite filter_cons_True by done. f_equal. by apply filter_no_match.
  - rewrite filter_cons_False; [by apply IH|].
    intros Heq. apply Hna. rewrite Heq. by apply elem_of_labels.
Qed.

Lemma getitem_unique (df : DataFrame) (ls : str * Series) :
  NoDup (columns df) -> ls ∈ labelled df ->
  getitem df (fst ls) = Some (SelSeries (snd ls)).
Proof.
  intros Hnd Hin. unfold getitem.
  by rewrite (filter_unique_label _ ls Hnd Hin).
Qed.

Lemma join_column_lines (defs : list (str * str)) :
  join (lit "," ++ nl) (map (fun d => fst d ++ lit " " ++ snd d) defs) = column_lines defs.
Proof.
  induction defs as [|d [|d' rest] IH]; [done|done|].
  change (column_lines (d :: d' :: rest))
    with (fst d ++ lit " " ++ snd d ++ lit "," ++ nl ++ column_lines (d' :: rest)).
  rewrite <- IH. simpl map. cbn [join].
  by rewrite <- !app_assoc.
Qed.

Lemma qualified_prefix (schema : option str) (table : str) :
  qualified schema table = schema_prefix schema ++ table.
Proof.
  destruct schema as [[|c s]|]; simpl; [done| |done].
  by rewrite <- app_assoc.
Qed.

Lemma column_lines_via_getitem (df : DataFrame) :
  NoDup (columns df) ->
  column_clauses df
  = Some (map (fun d => fst d ++ lit " " ++ snd d) (column_definitions df)).
Proof.
  intros Hnd. apply mapM_Some. unfold columns, column_definitions.
  rewrite map_map. apply Forall2_fmap_l, Forall2_fmap_r.
  apply Forall_Forall2_diag, Forall_forall. intros ls Hin.
  simpl. rewrite (getitem_unique df ls Hnd Hin). reflexivity.
Qed.

(** Building the statement never raises: every label asked for is a label
    of the frame. *)
Lemma build_create_table_sql_total (schema : option str) (table : str) (df : DataFrame) :
  is_Some (build_create_table_sql schema table df).
Proof.
  unfold build_create_table_sql.
  destruct (column_clauses df) as [cols|] eqn:Hm; [by eexists|exfalso].
  apply mapM_None in Hm. apply Exists_exists in Hm as (c & Hin & Hc).
  unfold columns in Hin. apply list_elem_of_In, in_map_iff in Hin as (ls & <- & Hin).
  apply list_elem_of_In in Hin.
  unfold getitem in Hc.
  destruct (filter _ (labelled df)) as [|a [|b rest]] eqn:Hf; simpl in Hc; try done.
  assert (ls ∈ filter (fun x => fst x = fst ls) (labelled df)) as Hin'
    by (by apply list_elem_of_filter).
  rewrite Hf in Hin'. by apply elem_of_nil in Hin'.
Qed.

(** C6.  For a frame with distinct column names the statement is
    [CREATE TABLE [schema.]table (], one [name type] line per column joined
    by a comma and a newline, and [)] on a line of its own; for the columns
    ID NUMBER and NAME VARCHAR2(4000), table T and no schema it is exactly
    the text of the specification. *)
Theorem build_create_table_sql_text :
  (forall schema table df,
     NoDup (columns df) ->
     build_create_table_sql schema table df
     = Some (create_table_text schema table (column_definitions df))) /\
  (forall df,
     column_definitions df = [(lit "ID", lit "NUMBER"); (lit "NAME", lit "VARCHAR2(4000)")] ->
     build_create_table_sql None (lit "T") df
     = Some (lit "CREATE TABLE T (" ++ nl ++ lit "ID NUMBER," ++ nl ++
             lit "NAME VARCHAR2(4000)" ++ nl ++ lit ")")).
Proof.
  assert (forall schema table df,
     NoDup (columns df) ->
     build_create_table_sql schema table df
     = Some (create_table_text schema table (column_definitions df))) as Hgen.
  { intros schema table df Hnd. unfold build_create_table_sql.
    rewrite (column_lines_via_getitem df Hnd). simpl.
    rewrite join_column_lines, qualified_prefix.
    unfold create_table_text. by rewrite <- !app_assoc. }
  split; [exact Hgen|].
  intros df Hdefs. rewrite Hgen.
  - rewrite Hdefs. reflexivity.
  - assert (columns df = map fst (column_definitions df)) as ->.
    { unfold columns, column_definitions. by rewrite map_map. }
    rewrite Hdefs. compute_done.
Qed.

Lemma build_create_table_sql_text_witness :
  build_create_table_sql None (lit "T") people
  = Some (lit "CREATE TABLE T (" ++ nl ++ lit "ID NUMBER," ++ nl ++
          lit "NAME VARCHAR2(4000)" ++ nl ++ lit ")").
Proof. apply (proj2 build_create_table_sql_text people). reflexivity. Defined.

(** ** Insertion *)

Lemma zip_with_map_l {A B C} (f : A -> B -> C) (g : B -> A) (l : list B) :
  zip_with f (map g l) l = map (fun x => f (g x) x) l.
Proof. induction l as [|x l IH]; simpl; [done|by f_equal]. Qed.

Lemma labelled_where_notnull (df : DataFrame) :
  labelled (where_ df (notnull_frame df))
  = map (fun ls => (fst ls, where_column (map notnull (values (snd ls))) (snd ls)))
        (labelled df).
Proof. unfold where_, notnull_frame. simpl. apply zip_with_map_l. Qed.

Lemma columns_where_notnull (df : DataFrame) :
  columns (where_ df (notnull_frame df)) = columns df.
Proof.
  unfold columns. rewrite labelled_where_notnull, map_map. reflexivity.
Qed.

Lemma values_tolist_length (df : DataFrame) : length (values_tolist df) = index_len df.
Proof. unfold values_tolist. cbv zeta. by rewrite length_map, length_seq. Qed.

Lemma join_bind_list (k n : nat) :
  join (lit ",") (map (fun i => lit ":" ++ decimal (i + 1)) (seq k n)) = bind_list (k + 1) n.
Proof.
  revert k. induction n as [|n IH]; intros k; [done|].
  destruct n as [|n]; [done|].
  change (bind_list (k + 1) (S (S n)))
    with (lit ":" ++ decimal (k + 1) ++ lit "," ++ bind_list (S (k + 1)) (S n)).
  replace (S (k + 1)) with (S k + 1)%nat by lia.
  rewrite <- IH. simpl seq. simpl map. cbn [join].
  rewrite <- ?app_assoc. reflexivity.
Qed.

Lemma insert_statement_sql (schema : option str) (table : str) (df : DataFrame) :
  fst (insert_statement schema table df) = insert_text schema table (columns df).
Proof.
  unfold insert_statement, insert_text. simpl.
  rewrite columns_where_notnull, (join_bind_list 0), qualified_prefix.
  by rewrite <- !app_assoc.
Qed.

Lemma insert_statement_rows (schema : option str) (table : str) (df : DataFrame) :
  snd (insert_statement schema table df) = values_tolist (where_ df (notnull_frame df)).
Proof. reflexivity. Qed.

Lemma insert_statement_rows_length (schema : option str) (table : str) (df : DataFrame) :
  length (snd (insert_statement schema table df)) = index_len df.
Proof. by rewrite insert_statement_rows, values_tolist_length. Qed.

(** *** Running the primitives *)

Ltac to_fmap :=
  repeat match goal with
    | |- context [map ?f ?l] => change (map f l) with (f <$> l)
    | H : context [map ?f ?l] |- _ => change (map f l) with (f <$> l) in H
    end.

Section Runs.
Context `{World}.

Lemma bind_run {A B} (m : M A) (f : A -> M B) (st : State) :
  (m ≫= f) st =
  match m st with
  | (Ok a, st') => f a st'
  | (Raise e, st') => (Raise e, st')
  | (Stopped, st') => (Stopped, st')
  end.
Proof. reflexivity. Qed.

Lemma deref_run (l : loc) (df : DataFrame) (st : State) :
  heap st !! l = Some df -> deref l st = (Ok df, st).
Proof. intros Hl. unfold deref. by rewrite Hl. Qed.

Lemma executemany_run (sql : str) (rows : list (list cell)) (st : State) :
  executemany sql rows st =
  let r := cursor_executemany (events st) sql rows in
  (match r with Some e => Raise e | None => Ok tt end,
   mkState (heap st) (events st ++ [EvExecutemany sql rows r])).
Proof.
  unfold executemany. rewrite bind_run. simpl.
  rewrite bind_run. simpl. by destruct (cursor_executemany _ _ _).
Qed.

Lemma execute_run (sql : str) (binds : list (str * str)) (st : State) :
  execute sql binds st =
  let r := cursor_execute (events st) sql binds in
  (match r with Some e => Raise e | None => Ok tt end,
   mkState (heap st) (events st ++ [EvExecute sql binds r])).
Proof.
  unfold execute. rewrite bind_run. simpl.
  rewrite bind_run. simpl. by destruct (cursor_execute _ _ _).
Qed.

Lemma commit_run (st : State) :
  commit st =
  let r := connection_commit (events st) in
  (match r with Some e => Raise e | None => Ok tt end,
   mkState (heap st) (events st ++ [EvCommit r])).
Proof.
  unfold commit. rewrite bind_run. simpl.
  rewrite bind_run. simpl. by destruct (connection_commit _).
Qed.

Lemma fetchone0_run (st : State) :
  fetchone0 st =
  let r := cursor_fetchone (events st) in
  (match r with inl e => Raise e | inr n => Ok n end,
   mkState (heap st) (events st ++ [EvFetchone r])).
Proof.
  unfold fetchone0. rewrite bind_run. simpl.
  rewrite bind_run. simpl. by destruct (cursor_fetchone _).
Qed.

Lemma get_connection_run (user password host : str) (port : Z) (service : str) (st : State) :
  get_connection user password host port service st =
  let d := makedsn host port service in
  let r := oracledb_connect (events st) user password d in
  (match r with inl e => Raise e | inr conn => Ok conn end,
   mkState (heap st) (events st ++ [EvConnect user password d r])).
Proof.
  unfold get_connection. cbv zeta. rewrite bind_run. simpl.
  rewrite bind_run. simpl. by destruct (oracledb_connect _ _ _ _).
Qed.

Lemma copy_run (l : loc) (df : DataFrame) (st : State) :
  heap st !! l = Some df ->
  copy l st =
  (Ok (fresh (dom (heap st))),
   mkState (<[fresh (dom (heap st)) := df]> (heap st)) (events st)).
Proof. intros Hl. unfold copy. by rewrite bind_run, (deref_run l df st Hl). Qed.

Lemma getattr_columns_run (l : loc) (df : DataFrame) (st : State) :
  heap st !! l = Some df -> getattr_columns l st = (Ok (columns df), st).
Proof. intros Hl. unfold getattr_columns. by rewrite bind_run, (deref_run l df st Hl). Qed.

Lemma setattr_columns_run (l : loc) (new : list str) (df df' : DataFrame) (st : State) :
  heap st !! l = Some df ->
  set_columns new df = Some df' ->
  setattr_columns l new st = (Ok tt, mkState (<[l := df']> (heap st)) (events st)).
Proof.
  intros Hl Hset. unfold setattr_columns.
  by rewrite bind_run, (deref_run l df st Hl), Hset.
Qed.

End Runs.

(** C7 at a frame with a missing number.  [insert_dataframe] makes one
    [executemany] call with the text
    [INSERT INTO T (NAME,SCORE) VALUES (:1,:2)] and one row per row of the
    frame.  In the second row the missing name, held in a column of Python
    objects, has become [None]; the missing score, held in a column of
    floats, is still [NaN]: [df.where(pd.notnull(df), None)] cannot put
    [None] into such a column, so not every missing value reaches the
    database as a null marker. *)
Theorem insert_dataframe_keeps_nan :
  let _ := accepting 1 (inr measurements) in
  let st := mkState {[ 1%positive := measurements ]} [] in
  insert_dataframe scott None (lit "T") 1%positive st
  = (Ok tt,
     mkState (heap st)
       [EvExecutemany (lit "INSERT INTO T (NAME,SCORE) VALUES (:1,:2)")
          [[VStr (lit "ann"); VFloat 3 (-1)]; [VNone; VNaN]] None]) /\
  VNaN ∈ concat (snd (insert_statement None (lit "T") measurements)).
Proof.
  cbv zeta. split; [vm_compute; reflexivity|].
  vm_compute. set_solver.
Qed.

(** ** Empty schema *)

(** C9.  An empty schema string does what an absent schema does: the
    existence check binds the connected user's upper-cased name as owner, and
    the CREATE TABLE and INSERT statements name the bare table. *)
Theorem empty_schema_as_absent `{UnicodeData} `{World}
    (conn : Connection) (table : str) (df : DataFrame) (l : loc) :
  (owner_of conn (Some []) = upper (username conn) /\
   table_exists conn (Some []) table = table_exists conn None table /\
   table_exists conn (Some []) table
   = (execute table_exists_sql [(lit "o", upper (username conn)); (lit "t", table)];;
      n ← fetchone0; mret (0 <? n)%Z)) /\
  (build_create_table_sql (Some []) table df = build_create_table_sql None table df /\
   create_table conn (Some []) table l = create_table conn None table l /\
   exists cols,
     column_clauses df = Some cols /\
     build_create_table_sql (Some []) table df
     = Some (lit "CREATE TABLE " ++ table ++ lit " (" ++ nl ++
             join (lit "," ++ nl) cols ++ nl ++ lit ")")) /\
  (insert_statement (Some []) table df = insert_statement None table df /\
   insert_dataframe conn (Some []) table l = insert_dataframe conn None table l /\
   fst (insert_statement (Some []) table df)
   = lit "INSERT INTO " ++ table ++ lit " (" ++ join (lit ",") (columns df) ++
     lit ") VALUES (" ++ bind_list 1 (length (columns df)) ++ lit ")").
Proof.
  split; [|split].
  - repeat split; reflexivity.
  - split; [reflexivity|]. split; [reflexivity|].
    destruct (build_create_table_sql_total (Some []) table df) as [sql Hsql].
    unfold build_create_table_sql in *.
    destruct (column_clauses df) as [cols|]; [|discriminate].
    exists cols. split; reflexivity.
  - split; [reflexivity|]. split; [reflexivity|].
    rewrite insert_statement_sql. reflexivity.
Qed.

(** ** Renaming columns *)

(** C10.  [sanitize_columns] returns a frame that did not exist before; its
    labels are the sanitized labels of the input, in order, over the same
    columns and index; the input frame, and every other frame, is what it
    was. *)
Theorem sanitize_columns_copy `{UnicodeData} (l : loc) (df : DataFrame) (st : State) :
  heap st !! l = Some df ->
  exists l' df' st',
    sanitize_columns l st = (Ok l', st') /\
    l' <> l /\ heap st !! l' = None /\
    heap st' !! l' = Some df' /\
    columns df' = map sanitize_identifier (columns df) /\
    map snd (labelled df') = map snd (labelled df) /\
    index_len df' = index_len df /\
    heap st' !! l = Some df /\
    (forall k, k <> l' -> heap st' !! k = heap st !! k) /\
    events st' = events st.
Proof.
  intros Hl.
  set (l' := fresh (dom (heap st))).
  assert (heap st !! l' = None) as Hfresh.
  { apply not_elem_of_dom. apply is_fresh. }
  assert (l' <> l) as Hne.
  { intros Heq. rewrite Heq in Hfresh. congruence. }
  set (names := map sanitize_identifier (columns df)).
  set (df' := mkDataFrame (index_len df) (zip names (map snd (labelled df)))).
  assert (length names = length (labelled df)) as Hlen.
  { unfold names, columns. by rewrite !length_map. }
  assert (length names = length (map snd (labelled df))) as Hlen'.
  { by rewrite length_map. }
  exists l', df', (mkState (<[l' := df']> (<[l' := df]> (heap st))) (events st)).
  split; [|split; [done|split; [done|split; [|split; [|split; [|split; [|split; [|split]]]]]]]].
  - unfold sanitize_columns.
    rewrite bind_run, (copy_run l df st Hl). fold l'.
    rewrite bind_run, (getattr_columns_run l' df) by apply lookup_insert_eq.
    rewrite bind_run, (setattr_columns_run l' _ df df').
    + reflexivity.
    + apply lookup_insert_eq.
    + unfold set_columns. fold names. by rewrite bool_decide_eq_true_2.
  - cbn [heap]. apply lookup_insert_eq.
  - unfold columns, df'. cbn [labelled]. to_fmap. by rewrite fst_zip by lia.
  - unfold df'. cbn [labelled]. to_fmap. by rewrite snd_zip by lia.
  - reflexivity.
  - cbn [heap]. by rewrite !lookup_insert_ne.
  - intros k Hk. cbn [heap]. by rewrite !lookup_insert_ne.
  - reflexivity.
Qed.

Lemma sanitize_columns_copy_witness :
  let _ := sample_ucd in
  exists l' df' st',
    sanitize_columns 1%positive (mkState {[ 1%positive := scores ]} []) = (Ok l', st') /\
    heap st' !! l' = Some df' /\
    columns df' = map sanitize_identifier (columns scores) /\
    heap st' !! 1%positive = Some scores.
Proof.
  intros U.
  assert (heap (mkState {[ 1%positive := scores ]} []) !! 1%positive = Some scores) as Hl
    by (vm_compute; reflexivity).
  destruct (sanitize_columns_copy 1%positive scores _ Hl)
    as (l' & df' & st' & Hrun & _ & _ & Hnew & Hcols & _ & _ & Hold & _).
  exists l', df', st'. repeat split; assumption.
Defined.

(** ** The upload trigger *)

Lemma deref_dangling (l : loc) (st : State) :
  heap st !! l = None -> deref l st = (Raise (mkExn (lit "ReferenceError") []), st).
Proof. intros Hl. unfold deref. by rewrite Hl. Qed.

Lemma added_app (st : State) (h : gmap positive DataFrame) (evs : list event) :
  added st (mkState h (events st ++ evs)) = evs.
Proof. unfold added. cbn [events]. apply drop_app_length. Qed.

Lemma singleton_app {A} (a : A) (l : list A) : [a] ++ l = a :: l.
Proof. reflexivity. Qed.

Lemma has_prefix_app (p s : str) : has_prefix p (p ++ s) = true.
Proof. unfold has_prefix. apply bool_decide_eq_true_2, take_app_length. Qed.

Lemma build_create_table_sql_prefix (schema : option str) (table : str) (df : DataFrame) (sql : str) :
  build_create_table_sql schema table df = Some sql ->
  has_prefix (lit "CREATE TABLE ") sql = true.
Proof.
  unfold build_create_table_sql. destruct (column_clauses df); [|discriminate].
  intros Heq. apply (inj Some) in Heq. rewrite <- Heq. apply has_prefix_app.
Qed.

Lemma insert_statement_prefix (schema : option str) (table : str) (df : DataFrame) :
  has_prefix (lit "INSERT INTO ") (fst (insert_statement schema table df)) = true.
Proof. rewrite insert_statement_sql. apply has_prefix_app. Qed.

Lemma insert_text_prefix (schema : option str) (table : str) (cols : list str) :
  has_prefix (lit "INSERT INTO ") (insert_text schema table cols) = true.
Proof. apply has_prefix_app. Qed.

Lemma table_exists_sql_not_create : has_prefix (lit "CREATE TABLE ") table_exists_sql = false.
Proof. reflexivity. Qed.

Lemma reported_failure (pre : list event) :
  forall evs ev post e,
    reported evs -> evs = pre ++ ev :: post -> failure ev = Some e ->
    post = [EvLogException (lit "Upload failed") e; EvError (exn_str e)].
Proof.
  induction pre as [|p pre IH]; intros evs ev post e Hrep -> Hfail; simpl in Hrep.
  - by rewrite Hfail in Hrep.
  - destruct (failure p) eqn:Hp.
    + destruct pre as [|? [|? pre']]; simplify_eq/=; try done; try (by destruct pre').
    + destruct p; try (by eapply IH); try discriminate Hp.
      destruct Hrep as [_ Hrest].
      destruct pre as [|? [|? pre']]; simplify_eq/=; try done; try (by destruct pre').
Qed.

Lemma reported_logged (pre : list event) :
  forall evs msg e post,
    reported evs -> evs = pre ++ EvLogException msg e :: post ->
    msg = lit "Upload failed" /\ post = [EvError (exn_str e)].
Proof.
  induction pre as [|p pre IH]; intros evs msg e post Hrep ->; simpl in Hrep.
  - done.
  - destruct (failure p) eqn:Hp.
    + destruct pre as [|? [|? pre']]; simplify_eq/=; try done; try (by destruct pre').
    + destruct p; try (by eapply IH); try discriminate Hp.
      destruct Hrep as [_ Hrest].
      destruct pre as [|? [|? pre']]; simplify_eq/=; try done; try (by destruct pre').
Qed.

Arguments insert_statement : simpl never.
Arguments owner_of : simpl never.
Arguments table_exists_sql : simpl never.
Arguments build_create_table_sql : simpl never.

Ltac run_in H :=
  repeat first
    [ rewrite bind_run in H
    | rewrite get_connection_run in H
    | rewrite execute_run in H
    | rewrite fetchone0_run in H
    | rewrite commit_run in H
    | rewrite executemany_run in H
    | progress cbv zeta in H
    | progress cbn [heap events mret M_ret negb] in H ].

Ltac branch_in H :=
  match type of H with
  | context [oracledb_connect ?h ?u ?p ?d] => destruct (oracledb_connect h u p d) eqn:?
  | context [cursor_execute ?h ?s ?b] => destruct (cursor_execute h s b) eqn:?
  | context [cursor_fetchone ?h] => destruct (cursor_fetchone h) eqn:?
  | context [cursor_executemany ?h ?s ?r] => destruct (cursor_executemany h s r) eqn:?
  | context [connection_commit ?h] => destruct (connection_commit h) eqn:?
  | context [if (0 <? ?n)%Z then _ else _] => destruct (0 <? n)%Z eqn:?
  | context [if negb (0 <? ?n)%Z then _ else _] => destruct (0 <? n)%Z eqn:?
  | context [create_if_missing ?i] => destruct (create_if_missing i) eqn:?
  | context [match build_create_table_sql ?s ?t ?d with _ => _ end] =>
      let sql := fresh "sql" in
      let Hsql := fresh "Hsql" in
      destruct (build_create_table_sql_total s t d) as [sql Hsql]; rewrite Hsql in H
  end.

(** Runs the body of [upload] in [H], one case per answer of the world;
    [tac] is tried on [H] at each reference that is read. *)
Ltac run_upload H tac :=
  unfold upload, try_except, table_exists, create_table, insert_dataframe, global_df,
    st_error, st_success, st_stop, logger_exception, emit, raise in H;
  repeat (run_in H; repeat tac; try branch_in H);
  apply pair_equal_spec in H; destruct H as [<- <-];
  rewrite <- ?app_assoc, ?added_app, ?singleton_app.

(** Which event of an explicit list a given one is. *)
Ltac pick_event H :=
  repeat (apply elem_of_cons in H as [H|H]; [try discriminate H|]);
  try (by apply elem_of_nil in H).

Ltac count_events :=
  unfold count; cbn [List.filter is_create_table is_insert is_commit];
  rewrite ?table_exists_sql_not_create, ?insert_text_prefix, ?insert_statement_prefix;
  try (erewrite build_create_table_sql_prefix by eassumption);
  cbn [length].

Section Trigger.
Context `{UnicodeData} `{World}.

(** C2.  When the catalog reports no table of the name, creation is asked
    for and the database accepts every call, the trigger issues the CREATE
    TABLE statement, commits, issues the batch INSERT and commits again:
    one CREATE TABLE, one INSERT, two commits, in that order. *)
Theorem upload_creates_then_inserts
    (inp : Inputs) (l : loc) (d : DataFrame) (st : State) (o : outcome unit) (st' : State) :
  heap st !! l = Some d ->
  create_if_missing inp = true ->
  upload inp (Some l) st = (o, st') ->
  forallb call_ok (added st st') = true ->
  (forall n, EvFetchone (inr n) ∈ added st st' -> (n <= 0)%Z) ->
  exists conn n ddl,
    build_create_table_sql (Some (schema inp)) (table_name inp) d = Some ddl /\
    added st st' =
      [ EvConnect (user inp) (password inp)
          (makedsn (host inp) (port inp) (service inp)) (inr conn);
        EvExecute table_exists_sql
          [(lit "o", owner_of conn (Some (schema inp))); (lit "t", table_name inp)] None;
        EvFetchone (inr n);
        EvExecute ddl [] None;
        EvCommit None;
        EvSuccess (lit "Table created");
        EvExecutemany
          (insert_text (Some (schema inp)) (table_name inp) (columns d))
          (snd (insert_statement (Some (schema inp)) (table_name inp) d)) None;
        EvCommit None;
        EvSuccess (lit "Data inserted successfully " ++ [check_mark]) ] /\
    count is_create_table (added st st') = 1%nat /\
    count is_insert (added st st') = 1%nat /\
    count is_commit (added st st') = 2%nat /\
    o = Ok tt.
Proof.
  intros Hl Hc Hrun.
  run_upload Hrun
    ltac:(first [rewrite Hc in Hrun | rewrite (deref_run l d) in Hrun by exact Hl]).
  all: intros Hok Hcount; try discriminate Hok.
  - exfalso.
    match type of Hcount with
    | forall n, EvFetchone (inr n) ∈ ?evs -> _ =>
        match evs with
        | context [EvFetchone (inr ?z)] =>
            assert (z <= 0)%Z by (apply Hcount; set_solver)
        end
    end.
    lia.
  - eexists _, _, _. split; [eassumption|].
    rewrite insert_statement_sql.
    split; [reflexivity|].
    unfold count. cbn [List.filter is_create_table is_insert is_commit].
    rewrite table_exists_sql_not_create, insert_text_prefix.
    erewrite build_create_table_sql_prefix by eassumption.
    repeat split.
Qed.

(** C1 (as the code has it).  With creation not asked for: when the
    catalog reports no table of the name the trigger shows "Table does not
    exist" and stops, having issued neither a CREATE TABLE nor an INSERT
    nor a commit; when it reports an existing table the trigger issues no
    CREATE TABLE and goes on to the batch INSERT. *)
Theorem upload_without_create
    (inp : Inputs) (df : option loc) (st : State) (o : outcome unit) (st' : State) (n : Z) :
  create_if_missing inp = false ->
  upload inp df st = (o, st') ->
  EvFetchone (inr n) ∈ added st st' ->
  ((n <= 0)%Z ->
     o = Stopped /\
     exists conn,
       added st st' =
         [ EvConnect (user inp) (password inp)
             (makedsn (host inp) (port inp) (service inp)) (inr conn);
           EvExecute table_exists_sql
             [(lit "o", owner_of conn (Some (schema inp))); (lit "t", table_name inp)] None;
           EvFetchone (inr n);
           EvError (lit "Table does not exist");
           EvStop ]) /\
  ((0 < n)%Z ->
     count is_create_table (added st st') = 0%nat /\
     forall l d, df = Some l -> heap st !! l = Some d ->
                 count is_insert (added st st') = 1%nat).
Proof.
  intros Hc Hrun.
  destruct df as [l|]; [destruct (heap st !! l) as [d|] eqn:Hl|].
  - run_upload Hrun
      ltac:(first [rewrite Hc in Hrun | rewrite (deref_run l d) in Hrun by exact Hl]).
    all: intros Hin; pick_event Hin; simplify_eq.
    all: split; intros Hn; try (apply Z.ltb_lt in Hn; congruence);
         try (apply Z.ltb_ge in Hn; congruence).
    all: try (split; [reflexivity|eexists; reflexivity]).
    all: split; [by count_events|intros ? ? ? ?; by count_events].
  - run_upload Hrun
      ltac:(first [rewrite Hc in Hrun | rewrite (deref_dangling l) in Hrun by exact Hl]).
    all: intros Hin; pick_event Hin; simplify_eq.
    all: split; intros Hn; try (apply Z.ltb_lt in Hn; congruence);
         try (apply Z.ltb_ge in Hn; congruence).
    all: try (split; [reflexivity|eexists; reflexivity]).
    all: split; [by count_events|intros ? ? ? ?; congruence].
  - run_upload Hrun ltac:(rewrite Hc in Hrun).
    all: intros Hin; pick_event Hin; simplify_eq.
    all: split; intros Hn; try (apply Z.ltb_lt in Hn; congruence);
         try (apply Z.ltb_ge in Hn; congruence).
    all: try (split; [reflexivity|eexists; reflexivity]).
    all: split; [by count_events|intros ? ? ? ?; congruence].
Qed.

(** C8 (as the code has it).  No exception leaves the upload trigger: the
    run ends normally or by the stop signal.  The first database call that
    fails is the last call of the run; after it come only the log entry
    for its exception and the error message made of the exception's string
    form.  Any exception logged by the trigger is shown that way.  An
    exception of the file reader, however, is raised before the trigger is
    reached and leaves the script as it is, unlogged. *)
Theorem upload_reports_failures (inp : Inputs) (df : option loc) (st : State) :
  (exists o st',
     upload inp df st = (o, st') /\
     (o = Ok tt \/ o = Stopped) /\
     heap st' = heap st /\
     events st' = events st ++ added st st' /\
     (forall pre ev post e,
        added st st' = pre ++ ev :: post -> failure ev = Some e ->
        post = [EvLogException (lit "Upload failed") e; EvError (exn_str e)]) /\
     (forall pre msg e post,
        added st st' = pre ++ EvLogException msg e :: post ->
        msg = lit "Upload failed" /\ post = [EvError (exn_str e)])) /\
  (forall f e st1,
     uploaded_file inp = Some f ->
     read_file f st = (Raise e, st1) ->
     script inp st = (Raise e, st) /\ st1 = st).
Proof.
  split.
  - destruct (upload inp df st) as [o st'] eqn:Hrun.
    exists o, st'. split; [reflexivity|].
    assert ((o = Ok tt \/ o = Stopped) /\ heap st' = heap st /\
            events st' = events st ++ added st st' /\ reported (added st st')) as Hall.
    { destruct df as [l|]; [destruct (heap st !! l) as [d|] eqn:Hl|].
      - run_upload Hrun ltac:(rewrite (deref_run l d) in Hrun by exact Hl).
        all: cbn [heap events reported failure]; rewrite <- ?app_assoc, ?singleton_app.
        all: repeat split; auto.
      - run_upload Hrun ltac:(rewrite (deref_dangling l) in Hrun by exact Hl).
        all: cbn [heap events reported failure]; rewrite <- ?app_assoc, ?singleton_app.
        all: repeat split; auto.
      - run_upload Hrun idtac.
        all: cbn [heap events reported failure]; rewrite <- ?app_assoc, ?singleton_app.
        all: repeat split; auto. }
    destruct Hall as (Ho & Hheap & Hev & Hrep).
    repeat split; try assumption.
    + intros pre ev post e. by apply reported_failure.
    + eapply reported_logged; eauto.
    + eapply reported_logged; eauto.
  - intros f e st1 Hf Hread.
    assert (st1 = st) as ->.
    { unfold read_file in Hread.
      destruct (if endswith _ _ then _ else _); [|discriminate Hread].
      unfold raise in Hread. congruence. }
    split; [|reflexivity].
    unfold script. rewrite Hf, !bind_run, Hread. reflexivity.
Qed.

End Trigger.

(** ** The properties at sample inputs *)

Lemma sanitize_identifier_matches_witness :
  let _ := sample_ucd in
  sanitize_identifier (lit "   ") = [] /\
  fullmatch identifier_re (sanitize_identifier (lit "2nd place")).
Proof.
  intros U. split.
  - apply (proj1 (sanitize_identifier_matches (lit "   "))). reflexivity.
  - apply (proj1 (proj2 (sanitize_identifier_matches (lit "2nd place")))). discriminate.
Defined.

Lemma upload_creates_then_inserts_witness :
  let _ := sample_ucd in
  let _ := accepting 0 (inr people) in
  let r := upload (form None true true) (Some 1%positive) loaded in
  fst r = Ok tt /\
  count is_create_table (added loaded (snd r)) = 1%nat /\
  count is_insert (added loaded (snd r)) = 1%nat /\
  count is_commit (added loaded (snd r)) = 2%nat.
Proof.
  intros U W r.
  destruct (upload_creates_then_inserts (form None true true) 1%positive people loaded
              (fst r) (snd r))
    as (conn & n & ddl & _ & _ & Hcreate & Hinsert & Hcommit & Hok).
  - vm_compute. reflexivity.
  - reflexivity.
  - apply surjective_pairing.
  - vm_compute. reflexivity.
  - intros n Hin. vm_compute in Hin. pick_event Hin. by simplify_eq.
  - repeat split; assumption.
Defined.

(** C1 as stated fails: with an existing table and creation not asked for,
    the trigger does not abort; it sends the batch INSERT and commits. *)
Lemma existing_table_receives_rows :
  let _ := sample_ucd in
  let _ := accepting 1 (inr people) in
  create_if_missing (form None false true) = false /\
  upload (form None false true) (Some 1%positive) loaded
  = (Ok tt,
     mkState (heap loaded)
       [ EvConnect (lit "scott") (lit "tiger") (lit "localhost", 1521%Z, lit "FREEPDB1")
           (inr scott);
         EvExecute table_exists_sql [(lit "o", lit "SCOTT"); (lit "t", lit "T")] None;
         EvFetchone (inr 1%Z);
         EvExecutemany (lit "INSERT INTO T (ID,NAME) VALUES (:1,:2)")
           [[VInt 1; VStr (lit "ann")]; [VInt 2; VNone]] None;
         EvCommit None;
         EvSuccess (lit "Data inserted successfully " ++ [check_mark]) ]).
Proof. intros U W. split; vm_compute; reflexivity. Qed.

Lemma upload_without_create_witness :
  let _ := sample_ucd in
  let _ := accepting 0 (inr people) in
  let r := upload (form None false true) (Some 1%positive) loaded in
  fst r = Stopped /\
  exists conn,
    added loaded (snd r) =
      [ EvConnect (lit "scott") (lit "tiger") (lit "localhost", 1521%Z, lit "FREEPDB1")
          (inr conn);
        EvExecute table_exists_sql [(lit "o", owner_of conn (Some [])); (lit "t", lit "T")] None;
        EvFetchone (inr 0%Z);
        EvError (lit "Table does not exist");
        EvStop ].
Proof.
  intros U W r.
  apply (proj1 (upload_without_create (form None false true) (Some 1%positive) loaded
                  (fst r) (snd r) 0%Z eq_refl (surjective_pairing r)
                  ltac:(vm_compute; set_solver))).
  done.
Defined.

(** C8 as stated fails: a file the reader cannot parse makes the script end
    with the reader's exception, before the trigger is reached although the
    button was pressed; nothing is logged and no message is shown. *)
Lemma parse_error_leaves_the_script :
  let _ := sample_ucd in
  let _ := accepting 0 (inl parse_error) in
  button (form (Some csv_file) true true) = true /\
  script (form (Some csv_file) true true) empty_state = (Raise parse_error, empty_state) /\
  events empty_state = [].
Proof. intros U W. repeat split. Qed.

Lemma upload_reports_failures_witness :
  let _ := sample_ucd in
  let _ := rejecting login_denied in
  exists o st',
    upload (form None true true) None empty_state = (o, st') /\
    events st' =
      [ EvConnect (lit "scott") (lit "tiger") (lit "localhost", 1521%Z, lit "FREEPDB1")
          (inl login_denied);
        EvLogException (lit "Upload failed") login_denied;
        EvError (exn_str login_denied) ].
Proof.
  intros U W.
  destruct (proj1 (upload_reports_failures (form None true true) None empty_state))
    as (o & st' & Hrun & _ & _ & Hev & Hfail & _).
  exists o, st'. split; [exact Hrun|].
  rewrite Hev.
  assert (exists post,
            added empty_state st' =
            [] ++ EvConnect (lit "scott") (lit "tiger")
                    (lit "localhost", 1521%Z, lit "FREEPDB1") (inl login_denied) :: post)
    as [post Hpost].
  { vm_compute in Hrun. apply pair_equal_spec in Hrun as [_ <-]. eexists. reflexivity. }
  rewrite Hpost. rewrite (Hfail _ _ _ login_denied Hpost eq_refl). reflexivity.
Defined.

(** * Further properties *)

(** ** Logging *)

Section Logging.
Context `{LogFiles}.

(** The logger that [logging.getLogger(name)] hands out. *)
Local Abbreviation current name reg := (fst (getLogger name reg)).

Lemma get_logger_configured (name : str) (reg : gmap str Logger) (lg : Logger) :
  reg !! logger_key name = Some lg -> handlers lg <> [] ->
  get_logger name reg = (inr (logger_key name), reg).
Proof.
  intros Hreg Hh. unfold get_logger, getLogger. rewrite Hreg.
  by rewrite bool_decide_eq_true_2.
Qed.

Lemma get_logger_opened (name : str) (reg : gmap str Logger) :
  handlers (current name reg) = [] ->
  open_append (lit "app.log") = None ->
  get_logger name reg
  = (inr (logger_key name),
     <[logger_key name := mkLogger INFO app_handlers false]> reg).
Proof.
  unfold get_logger, getLogger. intros Hh Hopen.
  destruct (reg !! logger_key name) as [lg|] eqn:Hreg; cbn [fst] in Hh.
  - rewrite bool_decide_eq_false_2 by (intros Hne; by apply Hne).
    rewrite Hopen. f_equal. apply map_eq. intros k.
    destruct (decide (logger_key name = k)) as [<-|Hk].
    + rewrite lookup_insert_eq, !lookup_alter_eq, Hreg. cbn.
      unfold addHandler, set_propagate, setLevel. cbn. by rewrite Hh.
    + by rewrite lookup_insert_ne, !lookup_alter_ne.
  - rewrite bool_decide_eq_false_2 by (intros Hne; by apply Hne).
    rewrite Hopen. f_equal. apply map_eq. intros k.
    destruct (decide (logger_key name = k)) as [<-|Hk].
    + by rewrite lookup_insert_eq, !lookup_alter_eq, lookup_insert_eq.
    + by rewrite lookup_insert_ne, !lookup_alter_ne, lookup_insert_ne.
Qed.

Lemma get_logger_refused (name : str) (reg : gmap str Logger) (e : exn) :
  handlers (current name reg) = [] ->
  open_append (lit "app.log") = Some e ->
  get_logger name reg
  = (inl e, <[logger_key name := setLevel INFO (current name reg)]> reg).
Proof.
  unfold get_logger, getLogger. intros Hh Hopen.
  destruct (reg !! logger_key name) as [lg|] eqn:Hreg; cbn [fst] in *.
  - rewrite bool_decide_eq_false_2 by (intros Hne; by apply Hne).
    rewrite Hopen. f_equal. apply map_eq. intros k.
    destruct (decide (logger_key name = k)) as [<-|Hk].
    + by rewrite lookup_insert_eq, lookup_alter_eq, Hreg.
    + by rewrite lookup_insert_ne, lookup_alter_ne.
  - rewrite bool_decide_eq_false_2 by (intros Hne; by apply Hne).
    rewrite Hopen. f_equal. apply map_eq. intros k.
    destruct (decide (logger_key name = k)) as [<-|Hk].
    + by rewrite !lookup_insert_eq, lookup_alter_eq, lookup_insert_eq.
    + by rewrite !lookup_insert_ne, lookup_alter_ne, lookup_insert_ne.
Qed.

(** X1.  Calling [get_logger] again changes nothing: the second call gives
    the result of the first and leaves the registry as the first left it, so
    handlers are never registered twice. *)
Theorem get_logger_idempotent (name : str) (reg : gmap str Logger) :
  get_logger name (snd (get_logger name reg)) = get_logger name reg.
Proof.
  destruct (decide (handlers (current name reg) = [])) as [Hh|Hh].
  - destruct (open_append (lit "app.log")) as [e|] eqn:Hopen.
    + rewrite (get_logger_refused name reg e Hh Hopen). cbn [snd].
      set (lg := setLevel INFO (current name reg)).
      assert (current name (<[logger_key name := lg]> reg) = lg) as Hcur.
      { unfold getLogger. by rewrite lookup_insert_eq. }
      rewrite (get_logger_refused name _ e); [|by rewrite Hcur|done].
      by rewrite Hcur, insert_insert_eq.
    + rewrite (get_logger_opened name reg Hh Hopen). cbn [snd].
      eapply get_logger_configured; [apply lookup_insert_eq|done].
  - unfold getLogger in Hh.
    destruct (reg !! logger_key name) as [lg|] eqn:Hreg; cbn [fst] in Hh; [|done].
    rewrite (get_logger_configured name reg lg Hreg Hh). cbn [snd].
    by apply (get_logger_configured name reg lg).
Qed.

(** X2.  Starting from a logger without handlers and a log file that can be
    opened, any number of calls, one or more, leaves the logger with exactly
    the console handler and the rotating-file handler, at level INFO and not
    propagating. *)
Theorem get_logger_two_handlers (name : str) (reg : gmap str Logger) (n : nat) :
  handlers (current name reg) = [] ->
  open_append (lit "app.log") = None ->
  Nat.iter (S n) (fun r => snd (get_logger name r)) reg !! logger_key name
  = Some (mkLogger INFO app_handlers false).
Proof.
  intros Hh Hopen. induction n as [|n IH].
  - cbn [Nat.iter nat_rect]. rewrite (get_logger_opened name reg Hh Hopen).
    apply lookup_insert_eq.
  - change (Nat.iter (S (S n)) ?f ?x) with (f (Nat.iter (S n) f x)).
    cbv beta. erewrite get_logger_configured; [exact IH|exact IH|done].
Qed.

(** X3.  A logger that already has a handler is handed back as it is:
    [get_logger] returns at once and the logger keeps its level, its
    handlers and its propagate flag, whatever they are. *)
Theorem get_logger_keeps_configured (name : str) (reg : gmap str Logger) (lg : Logger) :
  reg !! logger_key name = Some lg ->
  handlers lg <> [] ->
  get_logger name reg = (inr (logger_key name), reg) /\
  snd (get_logger name reg) !! logger_key name = Some lg.
Proof.
  intros Hreg Hh.
  rewrite (get_logger_configured name reg lg Hreg Hh). by split.
Qed.

(** X4.  When the log file cannot be opened, [get_logger] raises that
    error having registered no handler, so that the next call tries again;
    the level, set before the file is opened, is INFO already. *)
Theorem get_logger_refused_file (name : str) (reg : gmap str Logger) (e : exn) :
  handlers (current name reg) = [] ->
  open_append (lit "app.log") = Some e ->
  exists reg',
    get_logger name reg = (inl e, reg') /\
    reg' !! logger_key name
    = Some (mkLogger INFO [] (propagate (current name reg))) /\
    handlers (current name reg') = [].
Proof.
  intros Hh Hopen.
  exists (<[logger_key name := setLevel INFO (current name reg)]> reg).
  split; [by apply get_logger_refused|].
  assert (setLevel INFO (current name reg)
          = mkLogger INFO [] (propagate (current name reg))) as Hset.
  { unfold setLevel. by rewrite Hh. }
  split.
  - by rewrite lookup_insert_eq, Hset.
  - unfold getLogger at 1. by rewrite lookup_insert_eq, Hset.
Qed.

End Logging.

(** ** More on the sanitizer *)

Lemma fullmatch_upto_inv (p : char -> bool) (n : nat) (s : str) :
  fullmatch (re_upto n (ReClass p)) s ->
  Forall (fun c => p c = true) s /\ (length s <= n)%nat.
Proof.
  revert s. induction n as [|n IH]; intros s Hm; simpl in Hm.
  - inversion Hm; subst. split; [constructor|simpl; lia].
  - inversion Hm as [| | |? ? ? Hl|? ? ? Hr| |]; subst.
    + inversion Hl; subst. split; [constructor|simpl; lia].
    + inversion Hr as [| |? ? s1 s2 H1 H2| | | |]; subst.
      inversion H1; subst. destruct (IH _ H2) as [Hall Hlen].
      split; [by constructor|simpl; lia].
Qed.

Lemma fullmatch_cat_class_inv (p : char -> bool) (r : regex) (s : str) :
  fullmatch (ReCat (ReClass p) r) s ->
  exists c s', s = c :: s' /\ p c = true /\ fullmatch r s'.
Proof.
  inversion 1 as [| |? ? s1 s2 H1 H2| | | |]; subst.
  inversion H1; subst. eauto.
Qed.

Lemma ascii_sub_ident (c : char) : ident_char (ascii_sub c) = true.
Proof. unfold ascii_sub. by destruct (ident_char (ascii_upper c)) eqn:Hc. Qed.

Lemma word_char_upper (c : char) : word_char c = true -> ident_char (ascii_upper c) = true.
Proof.
  unfold word_char, ascii_upper. intros Hc.
  destruct (is_lower_az c) eqn:Hl.
  - clear Hc. unfold ident_char, is_upper_AZ. bool_arith.
    apply orb_true_intro. left. apply orb_true_intro. left.
    apply andb_true_intro. split; apply N.leb_le; lia.
  - rewrite orb_false_r in Hc. exact Hc.
Qed.

Lemma word_char_sub (c : char) : word_char c = true -> ascii_sub c = ascii_upper c.
Proof. intros Hc. unfold ascii_sub. by rewrite word_char_upper. Qed.

Lemma word_char_ascii (c : char) : word_char c = true -> c < 128.
Proof.
  unfold word_char. intros Hc. apply orb_prop in Hc as [Hc|Hc].
  - by apply ident_char_ascii.
  - bool_arith. lia.
Qed.

Section SanitizerMore.
Context `{UnicodeData}.

Lemma word_char_not_space (c : char) : word_char c = true -> isspace c = false.
Proof.
  unfold word_char. intros Hc. apply orb_prop in Hc as [Hc|Hc].
  - by apply isspace_ident.
  - unfold isspace. bool_arith.
    replace (c <? 128) with true by (symmetry; apply N.ltb_lt; lia).
    replace (c <=? 13) with false by (symmetry; apply N.leb_gt; lia).
    replace (c <=? 31) with false by (symmetry; apply N.leb_gt; lia).
    replace (c =? 32) with false by (symmetry; apply N.eqb_neq; lia).
    by rewrite !andb_false_r.
Qed.

Lemma toupper_ascii (c : char) : c < 128 -> toupper c = [ascii_upper c].
Proof.
  intros Hc. unfold toupper, ascii_upper.
  apply N.ltb_lt in Hc. rewrite Hc. by destruct (is_lower_az c).
Qed.

Lemma upper_ascii (s : str) :
  Forall (fun c => c < 128) s -> upper s = map ascii_upper s.
Proof.
  induction 1 as [|c s Hc _ IH]; [done|].
  unfold upper in *. simpl. by rewrite (toupper_ascii c Hc), IH.
Qed.

Lemma re_sub_class_ascii (s : str) :
  re_sub_class (fun c => negb (ident_char c)) [underscore] (map ascii_upper s)
  = map ascii_sub s.
Proof.
  induction s as [|c s IH]; [done|].
  unfold re_sub_class in *. simpl. rewrite IH. unfold ascii_sub.
  by destruct (ident_char (ascii_upper c)).
Qed.

Lemma re_match_digit_ident (s : str) :
  Forall (fun c => ident_char c = true) s ->
  re_match_class re_digit s = starts_with_digit s.
Proof. destruct 1 as [|c s Hc _]; [done|]. simpl. by apply re_digit_ident. Qed.

(** The sanitizer in closed form on ASCII text that [strip] leaves alone. *)
Lemma sanitize_identifier_ascii (x : str) :
  Forall (fun c => c < 128) x -> strip x = x ->
  sanitize_identifier x = take 30 (guard_digit (map ascii_sub x)).
Proof.
  intros Hascii Hstrip. rewrite sanitize_identifier_unfold. cbv zeta.
  rewrite Hstrip, (upper_ascii x Hascii), re_sub_class_ascii.
  rewrite re_match_digit_ident; [reflexivity|].
  apply Forall_forall. intros c Hc. apply list_elem_of_In, in_map_iff in Hc as (c' & <- & _).
  apply ascii_sub_ident.
Qed.

Lemma lstrip_kept (x : str) :
  match x with c :: _ => isspace c = false | [] => True end -> lstrip x = x.
Proof. destruct x as [|c x]; [done|]. simpl. by intros ->. Qed.

(** [strip] leaves a text alone whose first and last characters are not
    whitespace. *)
Lemma strip_kept (x : str) :
  match x with c :: _ => isspace c = false | [] => True end ->
  match rev x with c :: _ => isspace c = false | [] => True end ->
  strip x = x.
Proof.
  intros Hhead Hlast. unfold strip, rstrip.
  rewrite (lstrip_kept x Hhead), (lstrip_kept (rev x) Hlast).
  apply rev_involutive.
Qed.

Lemma strip_word (x : str) :
  Forall (fun c => word_char c = true) x -> strip x = x.
Proof.
  intros Hx. apply strip_kept.
  - destruct Hx as [|c x Hc _]; [done|]. by apply word_char_not_space.
  - apply List.Forall_rev in Hx. destruct Hx as [|c y Hc _]; [done|].
    by apply word_char_not_space.
Qed.

Lemma strip_inner (p s : str) (c : char) :
  p <> [] -> s <> [] ->
  Forall (fun c => word_char c = true) p -> Forall (fun c => word_char c = true) s ->
  strip (p ++ c :: s) = p ++ c :: s.
Proof.
  intros Hp Hs Hwp Hws. apply strip_kept.
  - destruct Hwp as [|a p Ha _]; [done|]. by apply word_char_not_space.
  - rewrite rev_app_distr. simpl. apply List.Forall_rev in Hws.
    destruct (rev s) as [|b t] eqn:Hrev.
    + apply (f_equal (@rev char)) in Hrev. rewrite rev_involutive in Hrev. done.
    + simpl. inversion Hws; subst. by apply word_char_not_space.
Qed.

Lemma ascii_sub_other (c : char) : word_char c = false -> ascii_sub c = underscore.
Proof.
  unfold word_char, ascii_sub, ascii_upper. intros Hc.
  apply orb_false_elim in Hc as [Hi Hl]. by rewrite Hl, Hi.
Qed.

Lemma map_ascii_sub_word (x : str) :
  Forall (fun c => word_char c = true) x -> map ascii_sub x = map ascii_upper x.
Proof.
  induction 1 as [|c x Hc _ IH]; [done|]. simpl. by rewrite IH, word_char_sub.
Qed.

(** X5.  The names the sanitizer leaves as they are, are the empty name and
    the names matching [^[A-Z_][A-Z0-9_]{0,29}$], and no others. *)
Theorem sanitize_identifier_fixed_points (x : str) :
  sanitize_identifier x = x <-> x = [] \/ fullmatch identifier_re x.
Proof.
  split.
  - intros Hfix.
    pose proof (sanitize_identifier_ident x) as Hid.
    pose proof (sanitize_identifier_length x) as Hlen.
    pose proof (sanitize_identifier_head x) as Hhd.
    rewrite Hfix in Hid, Hlen, Hhd.
    destruct x as [|c s]; [by left|right].
    inversion Hid; subst. unfold identifier_re.
    apply (FmCat _ _ [c] s); [by constructor|].
    apply fullmatch_upto; [done|simpl in Hlen; lia].
  - intros [->|Hm]; [reflexivity|].
    apply fullmatch_cat_class_inv in Hm as (c & s2 & -> & Hc & H2).
    destruct (fullmatch_upto_inv ident_char 29 s2 H2) as [Hall Hlen].
    change (c :: s2) with ([c] ++ s2).
    assert (Forall (fun c => ident_char c = true) ([c] ++ s2)) as Hid.
    { constructor; [by apply ident_head_char|done]. }
    assert (Forall (fun c => word_char c = true) ([c] ++ s2)) as Hw.
    { eapply Forall_impl; [exact Hid|]. intros a Ha. unfold word_char. by rewrite Ha. }
    rewrite sanitize_identifier_ascii.
    + rewrite (map_ascii_sub_word _ Hw).
      assert (map ascii_upper ([c] ++ s2) = [c] ++ s2) as ->.
      { clear -Hid. induction Hid as [|a l Ha _ IH]; [done|]. simpl. rewrite IH.
        f_equal. unfold ascii_upper.
        destruct (is_lower_az a) eqn:Hl; [|done]. bool_arith; lia. }
      unfold guard_digit. simpl. rewrite (ident_head_not_digit c Hc).
      apply take_ge. simpl. lia.
    + eapply Forall_impl; [exact Hw|]. apply word_char_ascii.
    + by apply strip_word.
Qed.

(** X6.  A header of nothing but whitespace, the empty header among them,
    is sanitized to the empty name. *)
Theorem sanitize_identifier_blank (x : str) :
  Forall (fun c => isspace c = true) x -> sanitize_identifier x = [].
Proof.
  intros Hx.
  assert (lstrip x = []) as Hl.
  { induction Hx as [|c x Hc _ IH]; [done|]. simpl. by rewrite Hc. }
  rewrite sanitize_identifier_unfold. cbv zeta.
  unfold strip, rstrip. rewrite Hl. reflexivity.
Qed.

(** X7.  Two headers that differ only in one inner character outside
    letters, digits and underscore (a blank, a hyphen, a dot) are
    sanitized to the same name: distinct columns can collide. *)
Theorem sanitize_identifier_collides (p s : str) (c1 c2 : char) :
  p <> [] -> s <> [] ->
  Forall (fun c => word_char c = true) p -> Forall (fun c => word_char c = true) s ->
  c1 < 128 -> c2 < 128 -> word_char c1 = false -> word_char c2 = false ->
  sanitize_identifier (p ++ c1 :: s) = sanitize_identifier (p ++ c2 :: s) /\
  sanitize_identifier (p ++ c1 :: s)
  = take 30 (guard_digit (map ascii_upper p ++ underscore :: map ascii_upper s)).
Proof.
  intros Hp Hs Hwp Hws H1 H2 Hc1 Hc2.
  assert (forall c, c < 128 -> word_char c = false ->
            sanitize_identifier (p ++ c :: s)
            = take 30 (guard_digit (map ascii_upper p ++ underscore :: map ascii_upper s)))
    as Hform.
  { intros c Hc Hnw. rewrite sanitize_identifier_ascii.
    - rewrite map_app. simpl.
      by rewrite (map_ascii_sub_word p Hwp), (map_ascii_sub_word s Hws), ascii_sub_other.
    - apply Forall_app. split; [|constructor; [done|]].
      + eapply Forall_impl; [exact Hwp|]. apply word_char_ascii.
      + eapply Forall_impl; [exact Hws|]. apply word_char_ascii.
    - by apply strip_inner. }
  split; [|by apply Hform].
  by rewrite !Hform.
Qed.

(** X8.  On a header of ASCII letters, digits and underscores the sanitizer
    upper-cases the letters, puts an underscore before a leading digit and
    keeps the first 30 characters of that: the added underscore counts
    towards the 30. *)
Theorem sanitize_identifier_word (x : str) :
  Forall (fun c => word_char c = true) x ->
  sanitize_identifier x = take 30 (guard_digit (map ascii_upper x)).
Proof.
  intros Hx. rewrite sanitize_identifier_ascii.
  - by rewrite (map_ascii_sub_word x Hx).
  - eapply Forall_impl; [exact Hx|]. apply word_char_ascii.
  - by apply strip_word.
Qed.

End SanitizerMore.

(** ** More on the statements *)

Lemma infer_oracle_type_range (col : selection) : infer_oracle_type col ∈ oracle_types.
Proof.
  unfold infer_oracle_type, oracle_types.
  destruct (is_integer_dtype col); [set_solver|].
  destruct (is_float_dtype col); [set_solver|].
  destruct (is_datetime64_any_dtype col); set_solver.
Qed.

Lemma clauses_typed (df : DataFrame) (names clauses : list str) :
  Forall2 (fun c y => (col ← getitem df c; Some (c ++ lit " " ++ infer_oracle_type col)) = Some y)
          names clauses ->
  exists types,
    length types = length names /\
    Forall (fun t => t ∈ oracle_types) types /\
    clauses = map (fun d => fst d ++ lit " " ++ snd d) (zip names types).
Proof.
  induction 1 as [|c y names clauses Hc _ (types & Hlen & Hty & ->)].
  - exists []. repeat split. constructor.
  - destruct (getitem df c) as [col|]; [|discriminate].
    apply (inj Some) in Hc. subst y.
    exists (infer_oracle_type col :: types). split; [simpl; lia|]. split.
    + constructor; [apply infer_oracle_type_range|done].
    + reflexivity.
Qed.

(** X9.  Whatever the frame, repeated column names included, building the
    CREATE TABLE statement does not fail; it gives each column one line,
    its name and one of NUMBER, TIMESTAMP and VARCHAR2(4000), in the order
    of the columns; and the INSERT statement lists the same names in the
    same order for the same, equally qualified table. *)
Theorem statements_agree (schema : option str) (table : str) (df : DataFrame) :
  exists types,
    length types = length (columns df) /\
    Forall (fun t => t ∈ oracle_types) types /\
    build_create_table_sql schema table df
    = Some (create_table_text schema table (zip (columns df) types)) /\
    fst (insert_statement schema table df) = insert_text schema table (columns df).
Proof.
  destruct (build_create_table_sql_total schema table df) as [sql Hsql].
  unfold build_create_table_sql in *.
  destruct (column_clauses df) as [clauses|] eqn:Hcl; [|discriminate].
  apply mapM_Some in Hcl.
  destruct (clauses_typed df _ _ Hcl) as (types & Hlen & Hty & ->).
  exists types. split; [done|]. split; [done|]. split.
  - simpl. rewrite join_column_lines, qualified_prefix.
    unfold create_table_text. by rewrite <- !app_assoc.
  - apply insert_statement_sql.
Qed.

(** X10.  Empty frames.  With no columns the statements are
    [CREATE TABLE t (], an empty line, [)] and [INSERT INTO t () VALUES ()],
    and the batch has one empty row per index position; with no rows the
    batch is empty. *)
Theorem statements_of_empty_frame (schema : option str) (table : str) (df : DataFrame) :
  (labelled df = [] ->
     build_create_table_sql schema table df
     = Some (lit "CREATE TABLE " ++ qualified schema table ++ lit " (" ++ nl ++ nl ++ lit ")") /\
     insert_statement schema table df
     = (lit "INSERT INTO " ++ qualified schema table ++ lit " () VALUES ()",
        replicate (index_len df) [])) /\
  (index_len df = 0%nat -> snd (insert_statement schema table df) = []).
Proof.
  split.
  - intros Hno. split.
    + unfold build_create_table_sql, column_clauses, columns. rewrite Hno. reflexivity.
    + apply injective_projections.
      * rewrite insert_statement_sql. unfold insert_text, columns. rewrite Hno.
        rewrite qualified_prefix. simpl. by rewrite <- !app_assoc.
      * rewrite insert_statement_rows. unfold values_tolist.
        rewrite labelled_where_notnull, Hno. cbn [map where_ index_len].
        generalize 0%nat. induction (index_len df) as [|n IH]; intros k; [done|].
        simpl. by rewrite IH.
  - intros Hno. rewrite insert_statement_rows. unfold values_tolist.
    cbn [where_ index_len]. by rewrite Hno.
Qed.

(** ** More on the upload trigger *)

Ltac in_list := repeat first [apply list_elem_of_here | apply list_elem_of_further].


Section TriggerMore.
Context `{UnicodeData} `{World}.

(** X11.  When the batch INSERT fails, the run ends there: the error is
    logged and shown, the insert is not committed, and nothing undoes a
    CREATE TABLE of the same run, whose commit stands (as many commits as
    CREATE TABLE statements, none or one). *)
Theorem upload_failed_insert
    (inp : Inputs) (df : option loc) (st : State) (o : outcome unit) (st' : State)
    (sql : str) (rows : list (list cell)) (e : exn) :
  upload inp df st = (o, st') ->
  EvExecutemany sql rows (Some e) ∈ added st st' ->
  o = Ok tt /\
  count is_commit (added st st') = count is_create_table (added st st') /\
  exists pre,
    added st st'
    = pre ++ [ EvExecutemany sql rows (Some e);
               EvLogException (lit "Upload failed") e;
               EvError (exn_str e) ].
Proof.
  intros Hrun.
  destruct df as [l|]; [destruct (heap st !! l) as [d|] eqn:Hl|].
  - run_upload Hrun ltac:(rewrite (deref_run l d) in Hrun by exact Hl).
    all: intros Hin; pick_event Hin; simplify_eq.
    all: split; [reflexivity|]; split; [by count_events|].
    all: match goal with
         | |- exists pre, ?evs = _ => exists (take (length evs - 3) evs); reflexivity
         end.
  - run_upload Hrun ltac:(rewrite (deref_dangling l) in Hrun by exact Hl).
    all: intros Hin; pick_event Hin; simplify_eq.
  - run_upload Hrun idtac.
    all: intros Hin; pick_event Hin; simplify_eq.
Qed.

Lemma endswith_spec (s suffix : str) :
  endswith s suffix = true <-> exists p, s = p ++ suffix.
Proof.
  unfold endswith. rewrite bool_decide_eq_true. split.
  - intros Hd. exists (take (length s - length suffix) s).
    rewrite <- (take_drop (length s - length suffix) s) at 1. by rewrite Hd.
  - intros [p ->]. rewrite length_app.
    replace (length p + length suffix - length suffix)%nat with (length p) by lia.
    apply drop_app_length.
Qed.

Lemma read_file_run (f : UploadedFile) (st : State) :
  read_file f st =
  match parsed_by_name f with
  | inl e => (Raise e, st)
  | inr d => alloc d st
  end.
Proof. unfold read_file, parsed_by_name. by destruct (if endswith _ _ then _ else _). Qed.

Lemma columns_relabelled (d : DataFrame) :
  columns (relabelled d) = map sanitize_identifier (columns d).
Proof.
  unfold columns, relabelled. cbn [labelled].
  assert (length (map sanitize_identifier (map fst (labelled d)))
          <= length (map snd (labelled d)))%nat as Hlen
    by (rewrite !length_map; lia).
  to_fmap. by apply fst_zip.
Qed.

Lemma sanitize_columns_run (l : loc) (df : DataFrame) (st : State) :
  heap st !! l = Some df ->
  sanitize_columns l st
  = (Ok (fresh (dom (heap st))),
     mkState (<[fresh (dom (heap st)) := relabelled df]>
                (<[fresh (dom (heap st)) := df]> (heap st)))
             (events st)).
Proof.
  intros Hl. unfold sanitize_columns.
  rewrite bind_run, (copy_run l df st Hl).
  rewrite bind_run, (getattr_columns_run _ df) by apply lookup_insert_eq.
  rewrite bind_run, (setattr_columns_run _ _ df (relabelled df)).
  - reflexivity.
  - apply lookup_insert_eq.
  - unfold set_columns, columns. rewrite bool_decide_eq_true_2; [done|].
    by rewrite !length_map.
Qed.

Lemma columns_head (d : DataFrame) : columns (head d) = columns d.
Proof. unfold columns, head. cbn [labelled]. by rewrite map_map. Qed.

(** The script up to the trigger, for a file that the reader accepts: the
    row count is shown, then the preview, unless two sanitized headers are
    the same, in which case the script ends there. *)
Lemma script_loaded (inp : Inputs) (f : UploadedFile) (d : DataFrame) (st : State) :
  uploaded_file inp = Some f ->
  parsed_by_name f = inr d ->
  exists l st2,
    heap st2 !! l = Some (relabelled d) /\
    events st2
    = events st ++ [ EvSuccess (lit "Loaded " ++ decimal (index_len d) ++ lit " rows") ] /\
    script inp st
    = if bool_decide (NoDup (map sanitize_identifier (columns d)))
      then
        let st3 := mkState (heap st2) (events st2 ++ [EvDataframe (head (relabelled d))]) in
        if button inp then upload inp (Some l) st3 else (Ok tt, st3)
      else
        (Raise (mkExn (lit "ValueError")
                  (duplicate_columns (map sanitize_identifier (columns d)))), st2).
Proof.
  intros Hf Hd. unfold script. rewrite Hf.
  set (l1 := fresh (dom (heap st))).
  set (st1 := mkState (<[l1 := d]> (heap st)) (events st)).
  assert (read_file f st = (Ok l1, st1)) as Hread.
  { rewrite read_file_run, Hd. reflexivity. }
  assert (heap st1 !! l1 = Some d) as Hl1 by apply lookup_insert_eq.
  eexists _, _. split; [|split]; cycle 2.
  - rewrite !bind_run, Hread.
    rewrite !bind_run, (sanitize_columns_run l1 d st1 Hl1).
    rewrite !bind_run. unfold deref at 1. cbn [heap].
    rewrite lookup_insert_eq.
    unfold st_success, st_dataframe, emit, len.
    rewrite columns_head, columns_relabelled.
    repeat (rewrite bind_run; cbn [heap events mret M_ret]).
    cbn [index_len relabelled].
    destruct (bool_decide (NoDup (map sanitize_identifier (columns d)))); [|reflexivity].
    cbv zeta. cbn [heap events mret M_ret].
    destruct (button inp); reflexivity.
  - cbn [heap]. apply lookup_insert_eq.
  - reflexivity.
Qed.

Lemma added_extended (st st2 st' : State) (pre : list event) :
  events st2 = events st ++ pre ->
  events st' = events st2 ++ added st2 st' ->
  added st st' = pre ++ added st2 st'.
Proof.
  intros H2 H'. unfold added at 1. rewrite H', H2, <- app_assoc.
  apply drop_app_length.
Qed.

(** The statements that the trigger sends are made from the frame it is
    given. *)
Lemma upload_statements
    (inp : Inputs) (l : loc) (d : DataFrame) (st : State) (o : outcome unit) (st' : State) :
  heap st !! l = Some d ->
  upload inp (Some l) st = (o, st') ->
  events st' = events st ++ added st st' /\
  (forall sql rows r,
     EvExecutemany sql rows r ∈ added st st' ->
     sql = fst (insert_statement (Some (schema inp)) (table_name inp) d) /\
     rows = snd (insert_statement (Some (schema inp)) (table_name inp) d)) /\
  (forall sql r,
     EvExecute sql [] r ∈ added st st' ->
     build_create_table_sql (Some (schema inp)) (table_name inp) d = Some sql).
Proof.
  intros Hl Hrun.
  run_upload Hrun ltac:(rewrite (deref_run l d) in Hrun by exact Hl).
  all: cbn [events]; rewrite <- ?app_assoc, ?singleton_app.
  all: split; [reflexivity|split].
  all: intros; match goal with Hin : _ ∈ _ |- _ => pick_event Hin; simplify_eq end.
  all: try done.
Qed.


(** X13.  Pressing the button without a file: the trigger connects and asks
    the catalog, but issues no CREATE TABLE, no INSERT and no commit; once
    it needs the data (the table exists, or is to be created) it ends with
    the error "name 'df' is not defined", logged and shown. *)
Theorem script_without_file (inp : Inputs) (st : State) (o : outcome unit) (st' : State) :
  uploaded_file inp = None ->
  button inp = true ->
  script inp st = (o, st') ->
  count is_create_table (added st st') = 0%nat /\
  count is_executemany (added st st') = 0%nat /\
  count is_commit (added st st') = 0%nat /\
  forall n,
    EvFetchone (inr n) ∈ added st st' ->
    (0 < n)%Z \/ create_if_missing inp = true ->
    o = Ok tt /\
    exists pre,
      added st st'
      = pre ++ [ EvLogException (lit "Upload failed") name_error;
                 EvError (lit "name 'df' is not defined") ].
Proof.
  intros Hf Hb Hrun.
  assert (upload inp None st = (o, st')) as Hup.
  { unfold script in Hrun. by rewrite Hf, Hb in Hrun. }
  clear Hrun.
  run_upload Hup idtac.
  all: split; [by count_events|].
  all: split; [reflexivity|].
  all: split; [reflexivity|].
  all: intros n Hin Hcase; pick_event Hin; simplify_eq.
  all: try (destruct Hcase as [Hn|Hn]; [apply Z.ltb_lt in Hn; congruence|congruence]).
  all: split; [reflexivity|].
  all: match goal with
       | |- exists pre, ?evs = _ => exists (take (length evs - 2) evs); reflexivity
       end.
Qed.

(** X14.  From the file to the statements: for a file that the reader
    accepts, the script first shows the number of rows.  When two sanitized
    headers are the same the preview raises [ValueError] and the run ends
    there, whether or not the button is pressed.  Otherwise the preview
    follows; any INSERT the run then sends lists the sanitized headers of
    the file, in the file's order, and carries the rows that
    [insert_dataframe] makes of the relabelled frame, one per row of the
    file; any CREATE TABLE it sends is the one built from the frame with
    sanitized headers. *)
Theorem script_uses_sanitized_names
    (inp : Inputs) (f : UploadedFile) (d : DataFrame)
    (st : State) (o : outcome unit) (st' : State) :
  uploaded_file inp = Some f ->
  parsed_by_name f = inr d ->
  script inp st = (o, st') ->
  (~ NoDup (map sanitize_identifier (columns d)) ->
     (exists e, o = Raise e /\ exn_class e = lit "ValueError") /\
     added st st'
     = [ EvSuccess (lit "Loaded " ++ decimal (index_len d) ++ lit " rows") ]) /\
  (NoDup (map sanitize_identifier (columns d)) ->
     exists rest,
       added st st'
       = EvSuccess (lit "Loaded " ++ decimal (index_len d) ++ lit " rows")
         :: EvDataframe (head (relabelled d)) :: rest) /\
  (forall sql rows r,
     EvExecutemany sql rows r ∈ added st st' ->
     sql = insert_text (Some (schema inp)) (table_name inp)
             (map sanitize_identifier (columns d)) /\
     rows = snd (insert_statement (Some (schema inp)) (table_name inp) (relabelled d)) /\
     length rows = index_len d) /\
  (forall sql r,
     EvExecute sql [] r ∈ added st st' ->
     build_create_table_sql (Some (schema inp)) (table_name inp) (relabelled d) = Some sql).
Proof.
  intros Hf Hd Hrun.
  destruct (script_loaded inp f d st Hf Hd) as (l & st2 & Hl & Hev & Hs).
  rewrite Hs in Hrun.
  destruct (bool_decide (NoDup (map sanitize_identifier (columns d)))) eqn:Hnd.
  - apply bool_decide_eq_true in Hnd. cbv zeta in Hrun.
    split; [done|].
    set (st3 := mkState (heap st2) (events st2 ++ [EvDataframe (head (relabelled d))])) in *.
    assert (events st3
            = events st ++ [ EvSuccess (lit "Loaded " ++ decimal (index_len d) ++ lit " rows");
                             EvDataframe (head (relabelled d)) ]) as Hev3.
    { unfold st3. cbn [events]. by rewrite Hev, <- app_assoc. }
    destruct (button inp).
    + destruct (upload_statements inp l (relabelled d) st3 o st' Hl Hrun)
        as (Hext & Hins & Hddl).
      rewrite (added_extended st st3 st' _ Hev3 Hext).
      split; [by eexists|]. split.
      * intros sql rows r Hin.
        apply elem_of_cons in Hin as [Hin|Hin]; [discriminate|].
        apply elem_of_cons in Hin as [Hin|Hin]; [discriminate|].
        destruct (Hins sql rows r Hin) as [-> ->].
        rewrite insert_statement_sql, columns_relabelled.
        split; [reflexivity|]. split; [reflexivity|].
        by rewrite insert_statement_rows_length.
      * intros sql r Hin.
        apply elem_of_cons in Hin as [Hin|Hin]; [discriminate|].
        apply elem_of_cons in Hin as [Hin|Hin]; [discriminate|].
        by eapply Hddl.
    + apply pair_equal_spec in Hrun as [_ Hst]. subst st'.
      assert (added st st3
              = [ EvSuccess (lit "Loaded " ++ decimal (index_len d) ++ lit " rows");
                  EvDataframe (head (relabelled d)) ]) as ->.
      { unfold added. rewrite Hev3. apply drop_app_length. }
      split; [by eexists|].
      split; intros; match goal with Hin : _ ∈ _ |- _ => pick_event Hin end.
  - apply bool_decide_eq_false in Hnd.
    apply pair_equal_spec in Hrun as [Ho Hst]. subst o st'.
    assert (added st st2
            = [ EvSuccess (lit "Loaded " ++ decimal (index_len d) ++ lit " rows") ]) as ->.
    { unfold added. rewrite Hev. apply drop_app_length. }
    split; [intros _; split; [by eexists|done]|].
    split; [done|].
    split; intros; match goal with Hin : _ ∈ _ |- _ => pick_event Hin end.
Qed.

(** X15.  The reader is chosen by the file name's last four characters:
    a name ending in [.csv], in just that spelling, goes to the CSV reader,
    every other name to the spreadsheet reader.  A reader's exception is
    raised with the state as it was; an accepted file becomes one new frame
    and adds no event. *)
Theorem read_file_by_suffix (f : UploadedFile) (st : State) :
  ((exists p, name f = p ++ lit ".csv") ->
     parsed_by_name f = pd_read_csv (content f)) /\
  ((forall p, name f <> p ++ lit ".csv") ->
     parsed_by_name f = pd_read_excel (content f)) /\
  (forall e, parsed_by_name f = inl e -> read_file f st = (Raise e, st)) /\
  (forall d, parsed_by_name f = inr d ->
     exists l,
       read_file f st = (Ok l, mkState (<[l := d]> (heap st)) (events st)) /\
       heap st !! l = None).
Proof.
  split; [|split; [|split]].
  - intros Hs. apply endswith_spec in Hs. unfold parsed_by_name. by rewrite Hs.
  - intros Hs. unfold parsed_by_name.
    destruct (endswith (name f) (lit ".csv")) eqn:He; [|done].
    apply endswith_spec in He as [p Hp]. by destruct (Hs p).
  - intros e He. by rewrite read_file_run, He.
  - intros d Hd. exists (fresh (dom (heap st))). split.
    + by rewrite read_file_run, Hd.
    + apply not_elem_of_dom, is_fresh.
Qed.


End TriggerMore.

(** ** More on renaming columns *)

Lemma values_tolist_relabelled `{UnicodeData} (d : DataFrame) :
  values_tolist (relabelled d) = values_tolist d.
Proof.
  assert (forall df, values_tolist df
            = map (fun i => map (fun s => tolist_item
                                            (interleaved_dtype (map dtype (map snd (labelled df))))
                                            (nth i (values s) VNaN))
                                (map snd (labelled df)))
                  (seq 0 (index_len df))) as Hrows.
  { intros df. unfold values_tolist. cbv zeta. rewrite map_map.
    apply map_ext. intros i. by rewrite map_map. }
  rewrite !Hrows. unfold relabelled. cbn [labelled index_len].
  assert (length (map snd (labelled d))
          <= length (map sanitize_identifier (columns d)))%nat as Hlen
    by (unfold columns; rewrite !length_map; lia).
  to_fmap. by rewrite snd_zip.
Qed.

Lemma well_formed_relabelled `{UnicodeData} (d : DataFrame) :
  well_formed d -> well_formed (relabelled d).
Proof.
  unfold well_formed, relabelled. cbn [labelled index_len]. intros Hwf.
  apply Forall_forall. intros [c s] Hin. cbn [snd].
  apply elem_of_zip_r in Hin. to_fmap.
  apply list_elem_of_fmap in Hin as (ls & -> & Hls).
  by apply (proj1 (Forall_forall _ _) Hwf).
Qed.

(** X17.  Renaming keeps the shape: for a well-formed frame
    [sanitize_columns] succeeds and its result is well-formed, has as many
    rows and columns as the input and the same rows, value for value. *)
Theorem sanitize_columns_keeps_shape `{UnicodeData} (l : loc) (d : DataFrame) (st : State) :
  heap st !! l = Some d ->
  well_formed d ->
  exists l1 st1 d1,
    sanitize_columns l st = (Ok l1, st1) /\
    heap st1 !! l1 = Some d1 /\
    well_formed d1 /\
    len d1 = len d /\
    length (columns d1) = length (columns d) /\
    values_tolist d1 = values_tolist d.
Proof.
  intros Hl Hwf. eexists _, _, (relabelled d).
  split; [by apply sanitize_columns_run|].
  split; [cbn [heap]; apply lookup_insert_eq|].
  split; [by apply well_formed_relabelled|].
  split; [reflexivity|].
  split; [by rewrite columns_relabelled, length_map|].
  apply values_tolist_relabelled.
Qed.

(** ** The further properties at sample inputs *)

Lemma get_logger_two_handlers_witness :
  let _ := writable in
  Nat.iter 3 (fun r => snd (get_logger (lit "app") r)) ∅ !! lit "app"
  = Some (mkLogger INFO app_handlers false).
Proof. intros F. apply (get_logger_two_handlers (lit "app") ∅ 2); reflexivity. Defined.

Lemma get_logger_keeps_configured_witness :
  let _ := writable in
  let lg := mkLogger WARNING [StreamHandler None] true in
  snd (get_logger (lit "app") {[ lit "app" := lg ]}) !! lit "app" = Some lg.
Proof.
  intros F lg.
  assert (({[ lit "app" := lg ]} : gmap str Logger) !! logger_key (lit "app") = Some lg) as Hreg
    by (vm_compute; reflexivity).
  apply (proj2 (get_logger_keeps_configured (lit "app") {[ lit "app" := lg ]} lg Hreg
                  ltac:(discriminate))).
Defined.

Lemma get_logger_refused_file_witness :
  let _ := read_only permission_denied in
  exists reg',
    get_logger (lit "app") ∅ = (inl permission_denied, reg') /\
    reg' !! lit "app" = Some (mkLogger INFO [] true).
Proof.
  intros F.
  destruct (get_logger_refused_file (lit "app") ∅ permission_denied)
    as (reg' & Hrun & Hreg & _); [reflexivity|reflexivity|].
  exists reg'. split; [exact Hrun|exact Hreg].
Defined.

Lemma sanitize_identifier_fixed_points_witness :
  let _ := sample_ucd in
  sanitize_identifier (lit "ORDER_ID") = lit "ORDER_ID".
Proof.
  intros U. apply sanitize_identifier_fixed_points. right.
  apply (FmCat _ _ (lit "O") (lit "RDER_ID")); [by constructor|].
  apply fullmatch_upto; [|simpl; lia].
  repeat constructor.
Defined.

Lemma sanitize_identifier_blank_witness :
  let _ := sample_ucd in
  sanitize_identifier (lit "   ") = [].
Proof.
  intros U. apply sanitize_identifier_blank. repeat constructor.
Defined.

Lemma sanitize_identifier_collides_witness :
  let _ := sample_ucd in
  sanitize_identifier (lit "Col-1") = sanitize_identifier (lit "Col 1") /\
  sanitize_identifier (lit "Col-1") = lit "COL_1".
Proof.
  intros U.
  apply (sanitize_identifier_collides (lit "Col") (lit "1") 45 32);
    try discriminate; try reflexivity; repeat constructor.
Defined.

Lemma sanitize_identifier_word_witness :
  let _ := sample_ucd in
  sanitize_identifier (lit "2nd_quarter_revenue_before_taxes")
  = lit "_2ND_QUARTER_REVENUE_BEFORE_TA".
Proof.
  intros U.
  rewrite (sanitize_identifier_word (lit "2nd_quarter_revenue_before_taxes"))
    by repeat constructor.
  reflexivity.
Defined.

Lemma statements_of_empty_frame_witness :
  insert_statement None (lit "T") no_columns
  = (lit "INSERT INTO T () VALUES ()", [[]; []; []]).
Proof.
  apply (proj1 (statements_of_empty_frame None (lit "T") no_columns)). reflexivity.
Defined.

Lemma upload_failed_insert_witness :
  let _ := sample_ucd in
  let _ := insert_refusing 0 value_too_large in
  let r := upload (form None true true) (Some 1%positive) loaded in
  fst r = Ok tt /\
  count is_commit (added loaded (snd r)) = count is_create_table (added loaded (snd r)) /\
  count is_create_table (added loaded (snd r)) = 1%nat.
Proof.
  intros U W r.
  destruct (upload_failed_insert (form None true true) (Some 1%positive) loaded
              (fst r) (snd r)
              (lit "INSERT INTO T (ID,NAME) VALUES (:1,:2)")
              [[VInt 1; VStr (lit "ann")]; [VInt 2; VNone]] value_too_large
              (surjective_pairing r))
    as (Ho & Hc & _).
  - vm_compute. in_list.
  - split; [exact Ho|]. split; [exact Hc|]. vm_compute. reflexivity.
Defined.


Lemma script_without_file_witness :
  let _ := sample_ucd in
  let _ := accepting 1 (inr scores) in
  let r := script (form None false true) empty_state in
  count is_create_table (added empty_state (snd r)) = 0%nat /\
  count is_executemany (added empty_state (snd r)) = 0%nat /\
  count is_commit (added empty_state (snd r)) = 0%nat /\
  fst r = Ok tt.
Proof.
  intros U W r.
  destruct (script_without_file (form None false true) empty_state (fst r) (snd r)
              eq_refl eq_refl (surjective_pairing r))
    as (Hc & Hi & Hm & Hend).
  destruct (Hend 1%Z) as [Ho _]; [vm_compute; in_list|left; lia|].
  repeat split; assumption.
Defined.

Lemma script_uses_sanitized_names_witness :
  let _ := sample_ucd in
  let _ := accepting 1 (inr scores) in
  lit "INSERT INTO T (WHO,_2ND_TRY) VALUES (:1,:2)"
  = insert_text (Some []) (lit "T") (map sanitize_identifier (columns scores)) /\
  [[VStr (lit "ann"); VNaN]; [VStr (lit "bob"); VNaN]]
  = snd (insert_statement (Some []) (lit "T") (relabelled scores)) /\
  length [[VStr (lit "ann"); VNaN]; [VStr (lit "bob"); VNaN]] = index_len scores.
Proof.
  intros U W.
  set (r := script (form (Some csv_file) false true) empty_state).
  assert (parsed_by_name csv_file = inr scores) as Hparsed by (vm_compute; reflexivity).
  destruct (script_uses_sanitized_names (form (Some csv_file) false true) csv_file scores
              empty_state (fst r) (snd r) eq_refl Hparsed (surjective_pairing r))
    as (_ & _ & Hins & _).
  apply (Hins _ _ None). vm_compute. in_list.
Defined.

Lemma read_file_by_suffix_witness :
  let _ := accepting 0 (inl parse_error) in
  read_file csv_file empty_state = (Raise parse_error, empty_state).
Proof.
  intros W.
  apply (proj1 (proj2 (proj2 (read_file_by_suffix csv_file empty_state)))).
  reflexivity.
Defined.


Lemma scores_well_formed : well_formed scores.
Proof. repeat constructor. Qed.

Lemma sanitize_columns_keeps_shape_witness :
  let _ := sample_ucd in
  exists l1 st1 d1,
    sanitize_columns 1%positive (mkState {[ 1%positive := scores ]} []) = (Ok l1, st1) /\
    heap st1 !! l1 = Some d1 /\
    well_formed d1 /\
    values_tolist d1 = values_tolist scores.
Proof.
  intros U.
  assert (heap (mkState {[ 1%positive := scores ]} []) !! 1%positive = Some scores) as Hl
    by (vm_compute; reflexivity).
  destruct (sanitize_columns_keeps_shape 1%positive scores _ Hl scores_well_formed)
    as (l1 & st1 & d1 & Hrun & Hnew & Hwf & _ & _ & Hrows).
  exists l1, st1, d1. repeat split; assumption.
Defined.

Example sanitize_identifier_samples :
  let _ := sample_ucd in
  sanitize_identifier (lit "  Col 1 ") = lit "COL_1" /\
  sanitize_identifier (lit "Col-2") = lit "COL_2" /\
  sanitize_identifier (lit "2nd place") = lit "_2ND_PLACE" /\
  sanitize_identifier (lit "   ") = [] /\
  sanitize_identifier [223; 97] = lit "SSA".
Proof. repeat split; reflexivity. Qed.

(** The rows handed to [executemany] at sample frames: an integer next to
    floats arrives as a float and a missing float as [NaN]; next to a
    column of Python objects an integer stays one, and a missing entry of
    that column arrives as [None]. *)
Example insert_statement_samples :
  snd (insert_statement None (lit "T") readings)
  = [[VFloat 1 0; VFloat 3 (-1)]; [VFloat 2 0; VNaN]] /\
  snd (insert_statement None (lit "T") people)
  = [[VInt 1; VStr (lit "ann")]; [VInt 2; VNone]] /\
  snd (insert_statement None (lit "T") scores)
  = [[VStr (lit "ann"); VNaN]; [VStr (lit "bob"); VNaN]].
Proof. repeat split; vm_compute; reflexivity. Qed.
